(** * zotero-mcp: the document-extraction layer and the vector-index manager

    A shallow embedding of [zotero_mcp/local_db.py], [zotero_mcp/utils.py]
    and [zotero_mcp/chroma_client.py], with the properties of the design
    document stated and settled against it.

    Conventions.
    - A Python [str] is a [string]; [len] is [String.length], [s[:n]] is
      [str_take n s], [sep.join(l)] is [String.concat sep l].
    - A Python [int] is a [Z].
    - [Optional[str]] is [option string]; the truth value of such a field
      ([if self.title:]) is [truthy]: neither [None] nor the empty string.
    - A [Dict[str, str]] is a [gmap string string].
    - Exceptions are values of [Exception]; code that can raise returns in
      [Exception + A] or runs in the monad [Chroma.M]. *)

From Stdlib Require Import ZArith Ascii String List Sorting.Sorted.
From stdpp Require Import base option list sorting gmap strings pretty.

Set Default Proof Using "Type".
Local Open Scope Z_scope.

(** ** Python primitives *)

Module Py.

(** The line feed, as in the literal ["\n\n"]. *)
Definition LF : string := String (ascii_of_nat 10) EmptyString.

(** [s[:n]] *)
Fixpoint str_take (n : nat) (s : string) : string :=
  match n, s with
  | O, _ => EmptyString
  | S _, EmptyString => EmptyString
  | S n', String c s' => String c (str_take n' s')
  end.

(** [len(s)] *)
Definition len (s : string) : Z := Z.of_nat (String.length s).

(** [bool(s)] for a [str]. *)
Definition nonempty (s : string) : bool :=
  match s with EmptyString => false | String _ _ => true end.

(** [bool(x)] for an [Optional[str]]. *)
Definition truthy (x : option string) : bool :=
  match x with None => false | Some s => nonempty s end.

(** [a or b] on [Optional[str]] operands: [a] when it is truthy, else [b]. *)
Definition or_else (a b : option string) : option string :=
  if truthy a then a else b.


Inductive ExcClass :=
  | ValueError | ImportError | IndexError | FileNotFoundError | RuntimeError.

(** An exception: its class and its message, [str(e)]. *)
Record Exception := mkExc { exc_class : ExcClass; exc_str : string }.

#[global] Instance ExcClass_eq_dec : EqDecision ExcClass.
Proof. solve_decision. Defined.
#[global] Instance Exception_eq_dec : EqDecision Exception.
Proof. solve_decision. Defined.

(** [c.lower()] for a character: the letters A to Z are mapped to a to z,
    the other characters of the model are left as they are. *)
Definition lower_char (c : ascii) : ascii :=
  let n := nat_of_ascii c in
  if ((65 <=? n)%nat && (n <=? 90)%nat)%bool then ascii_of_nat (n + 32) else c.

(** [s.lower()] *)
Fixpoint lower (s : string) : string :=
  match s with
  | EmptyString => EmptyString
  | String c s' => String (lower_char c) (lower s')
  end.

(** [needle in hay] for strings, as a test. *)
Fixpoint str_in (needle hay : string) : bool :=
  String.prefix needle hay
  || match hay with
     | EmptyString => false
     | String _ hay' => str_in needle hay'
     end.

End Py.
Import Py.

(** ** [utils.py] *)

Module Utils.

(** One turn of the loop of [format_creators]. *)
Definition add_creator (names : list string) (creator : gmap string string)
  : list string :=
  match creator !! "firstName", creator !! "lastName" with
  | Some first, Some last => names ++ [last +:+ ", " +:+ first]
  | _, _ =>
      match creator !! "name" with
      | Some n => names ++ [n]
      | None => names
      end
  end.

Definition creator_names (creators : list (gmap string string)) : list string :=
  foldl add_creator [] creators.

Definition format_creators (creators : list (gmap string string)) : string :=
  let names := creator_names creators in
  match names with
  | [] => "No authors listed"
  | _ :: _ => String.concat "; " names
  end.

(** [is_local_mode], on the process environment [os.environ]. *)
Definition is_local_mode (environ : gmap string string) : bool :=
  bool_decide
    (lower (default "" (environ !! "ZOTERO_LOCAL")) ∈ ["true"; "yes"; "1"]).

Definition is_remote_mode (environ : gmap string string) : bool :=
  negb (is_local_mode environ).

(** A creator the loop renders: it has both name parts, or a single name. *)
Definition usable (creator : gmap string string) : Prop :=
  (is_Some (creator !! "firstName") /\ is_Some (creator !! "lastName"))
  \/ is_Some (creator !! "name").

(** A creator with a ["name"] entry and no firstName/lastName pair. *)
Definition name_only (creator : gmap string string) (n : string) : Prop :=
  creator !! "name" = Some n /\
  (creator !! "firstName" = None \/ creator !! "lastName" = None).

End Utils.

(** ** [local_db.py]: the item record *)

Module LocalDb.

Record ZoteroItem := mkItem {
  item_id : Z;
  key : string;
  item_type_id : Z;
  title : option string;
  abstract : option string;
  creators : option string;
  fulltext : option string;
  notes : option string;
  extra : option string;
  date_added : option string;
  date_modified : option string
}.

(** [if field: parts.append(f"{label}{field}")] *)
Definition append_section (label : string) (field : option string)
    (parts : list string) : list string :=
  match field with
  | Some v => if nonempty v then parts ++ [label +:+ v] else parts
  | None => parts
  end.

(** [self.fulltext[:5000] + "..." if len(self.fulltext) > 5000 else self.fulltext] *)
Definition truncated_fulltext (ft : string) : string :=
  if len ft >? 5000 then str_take (Z.to_nat 5000) ft +:+ "..." else ft.

(** The list [parts] at the end of [get_searchable_text]. *)
Definition searchable_parts (self : ZoteroItem) : list string :=
  let parts := [] in
  let parts := append_section "Title: " (title self) parts in
  let parts := append_section "Authors: " (creators self) parts in
  let parts := append_section "Abstract: " (abstract self) parts in
  let parts := append_section "Extra: " (extra self) parts in
  let parts := append_section "Notes: " (notes self) parts in
  let parts :=
    match fulltext self with
    | Some ft =>
        if nonempty ft then parts ++ ["Content: " +:+ truncated_fulltext ft]
        else parts
    | None => parts
    end in
  parts.

Definition get_searchable_text (self : ZoteroItem) : string :=
  String.concat (LF +:+ LF) (searchable_parts self).

(** *** The sections of the searchable text, as the design document lists
    them: six labelled fields in a fixed order. *)

Inductive Field := Title | Authors | Abstract | Extra | Notes | Content.

#[global] Instance Field_eq_dec : EqDecision Field.
Proof. solve_decision. Defined.


Definition label (f : Field) : string :=
  match f with
  | Title => "Title: "
  | Authors => "Authors: "
  | Abstract => "Abstract: "
  | Extra => "Extra: "
  | Notes => "Notes: "
  | Content => "Content: "
  end.

Definition field (f : Field) (it : ZoteroItem) : option string :=
  match f with
  | Title => title it
  | Authors => creators it
  | Abstract => abstract it
  | Extra => extra it
  | Notes => notes it
  | Content => fulltext it
  end.


(** The text under the label: the field itself, the full text within its
    budget. *)
Definition body (it : ZoteroItem) (f : Field) : string :=
  match f with
  | Content => truncated_fulltext (default "" (fulltext it))
  | _ => default "" (field f it)
  end.



(** The record with its full text removed. *)
Definition without_fulltext (it : ZoteroItem) : ZoteroItem :=
  {| item_id := item_id it;
     key := key it;
     item_type_id := item_type_id it;
     title := title it;
     abstract := abstract it;
     creators := creators it;
     fulltext := None;
     notes := notes it;
     extra := extra it;
     date_added := date_added it;
     date_modified := date_modified it |}.

(** *** The relational store

    The tables the query of [get_items_with_text] reads, with the columns
    it names. A nullable column is an [option]; NULL is [None]. *)

Record ItemsRow := mkItemsRow {
  i_itemID : Z;
  i_key : string;
  i_itemTypeID : Z;
  i_dateAdded : option string;
  i_dateModified : option string
}.

Record ItemDataRow := mkItemDataRow {
  d_itemID : Z;
  d_fieldID : Z;
  d_valueID : Z
}.

Record ItemDataValuesRow := mkItemDataValuesRow {
  v_valueID : Z;
  v_value : option string
}.

Record ItemNotesRow := mkItemNotesRow {
  n_itemID : Z;
  n_parentItemID : option Z;
  n_note : option string
}.

Record ItemCreatorsRow := mkItemCreatorsRow {
  ic_itemID : Z;
  ic_creatorID : Z
}.

Record CreatorsRow := mkCreatorsRow {
  c_creatorID : Z;
  c_firstName : option string;
  c_lastName : option string
}.

Record Database := mkDatabase {
  items : list ItemsRow;
  itemData : list ItemDataRow;
  itemDataValues : list ItemDataValuesRow;
  itemNotes : list ItemNotesRow;
  itemCreators : list ItemCreatorsRow;
  creators_table : list CreatorsRow
}.

(** The reserved item type, [14 = attachment]. *)
Definition ATTACHMENT : Z := 14.

(** [LEFT JOIN]: the matching rows of the right table, or one NULL row
    when there is none. *)
Definition left_join {B} (matches : list B) : list (option B) :=
  match matches with
  | [] => [None]
  | _ :: _ => Some <$> matches
  end.

(** [LEFT JOIN itemData x ON i.itemID = x.itemID AND x.fieldID = f] *)
Definition field_data (db : Database) (i : ItemsRow) (f : Z)
  : list (option ItemDataRow) :=
  left_join
    (filter (fun d => d_itemID d = i_itemID i /\ d_fieldID d = f) (itemData db)).

(** [LEFT JOIN itemDataValues v ON x.valueID = v.valueID]; the condition is
    not true on a NULL row [x]. *)
Definition field_val (db : Database) (x : option ItemDataRow)
  : list (option ItemDataValuesRow) :=
  left_join
    match x with
    | Some d => filter (fun v => v_valueID v = d_valueID d) (itemDataValues db)
    | None => []
    end.

(** A row of the joined tables: the columns the query reads afterwards. *)
Record Joined := mkJoined {
  j_i : ItemsRow;
  j_title_val : option ItemDataValuesRow;
  j_abstract_val : option ItemDataValuesRow;
  j_extra_val : option ItemDataValuesRow;
  j_n : option ItemNotesRow;
  j_c : option CreatorsRow
}.

(** The [FROM] clause: [items] and its nine left joins, in order. *)
Definition from_clause (db : Database) : list Joined :=
  i ← items db;
  title_data ← field_data db i 1;
  title_val ← field_val db title_data;
  abstract_data ← field_data db i 2;
  abstract_val ← field_val db abstract_data;
  extra_data ← field_data db i 16;
  extra_val ← field_val db extra_data;
  n ← left_join
        (filter (fun n => n_parentItemID n = Some (i_itemID i)
                          \/ n_itemID n = i_itemID i) (itemNotes db));
  ic ← left_join
         (filter (fun ic => ic_itemID ic = i_itemID i) (itemCreators db));
  c ← left_join
        match ic with
        | Some r => filter (fun c => c_creatorID c = ic_creatorID r)
                           (creators_table db)
        | None => []
        end;
  [mkJoined i title_val abstract_val extra_val n c].

(** [WHERE i.itemTypeID != 14] *)
Definition where_clause (rows : list Joined) : list Joined :=
  filter (fun j => i_itemTypeID (j_i j) <> ATTACHMENT) rows.

(** The columns of the [GROUP BY]: itemID, key, itemTypeID, dateAdded,
    dateModified, title, abstract, extra. *)
Record GroupKey := mkGroupKey {
  g_itemID : Z;
  g_key : string;
  g_itemTypeID : Z;
  g_dateAdded : option string;
  g_dateModified : option string;
  g_title : option string;
  g_abstract : option string;
  g_extra : option string
}.

#[global] Instance GroupKey_eq_dec : EqDecision GroupKey.
Proof. solve_decision. Defined.

Definition group_key (j : Joined) : GroupKey :=
  let i := j_i j in
  mkGroupKey (i_itemID i) (i_key i) (i_itemTypeID i) (i_dateAdded i)
    (i_dateModified i)
    (j_title_val j ≫= v_value) (j_abstract_val j ≫= v_value)
    (j_extra_val j ≫= v_value).

Fixpoint add_to_group (k : GroupKey) (r : Joined)
    (gs : list (GroupKey * list Joined)) : list (GroupKey * list Joined) :=
  match gs with
  | [] => [(k, [r])]
  | (k', rs) :: gs' =>
      if decide (k = k') then (k', rs ++ [r]) :: gs'
      else (k', rs) :: add_to_group k r gs'
  end.

(** [GROUP BY]: the groups in the order of their first rows, each with its
    rows in the order of the join. *)
Definition group_by (rows : list Joined) : list (GroupKey * list Joined) :=
  foldl (fun gs r => add_to_group (group_key r) r gs) [] rows.

(** [GROUP_CONCAT(X, sep)]: the non-NULL values joined by [sep]; NULL when
    there is none. *)
Definition group_concat (sep : string) (xs : list (option string))
  : option string :=
  match omap id xs with
  | [] => None
  | v :: vs => Some (String.concat sep (v :: vs))
  end.

(** The [CASE] over the creator's name parts. *)
Definition creator_case (c : option CreatorsRow) : option string :=
  match c with
  | Some c =>
      match c_firstName c, c_lastName c with
      | Some first, Some last => Some (last +:+ ", " +:+ first)
      | None, Some last => Some last
      | _, None => None
      end
  | None => None
  end.

(** A row of the result: the grouping columns and the two aggregates. *)
Record ResultRow := mkResultRow {
  r_group : GroupKey;
  r_notes : option string;
  r_creators : option string
}.

Definition select_clause (g : GroupKey * list Joined) : ResultRow :=
  mkResultRow g.1
    (group_concat " " ((fun j => j_n j ≫= n_note) <$> g.2))
    (group_concat "; " ((fun j => creator_case (j_c j)) <$> g.2)).

(** The order of two [dateModified] values: NULL sorts below every string,
    strings compare byte by byte. *)
Definition date_le (a b : option string) : bool :=
  match a, b with
  | None, _ => true
  | Some _, None => false
  | Some x, Some y => String.leb x y
  end.

(** [ORDER BY i.dateModified DESC], as a stable insertion sort. *)
Fixpoint insert_desc (x : ResultRow) (l : list ResultRow) : list ResultRow :=
  match l with
  | [] => [x]
  | y :: l' =>
      if date_le (g_dateModified (r_group y)) (g_dateModified (r_group x))
      then x :: y :: l'
      else y :: insert_desc x l'
  end.

Definition order_by_desc (l : list ResultRow) : list ResultRow :=
  foldr insert_desc [] l.

(** [LIMIT n] of SQLite: a negative [n] is no limit. *)
Definition sql_limit (n : Z) (l : list ResultRow) : list ResultRow :=
  if n <? 0 then l else take (Z.to_nat n) l.

(** The query, and the clause [if limit: query += f" LIMIT {limit}"]. *)
Definition run_query (db : Database) (limit : option Z) : list ResultRow :=
  let rows :=
    order_by_desc (select_clause <$> group_by (where_clause (from_clause db))) in
  match limit with
  | Some n => if n =? 0 then rows else sql_limit n rows
  | None => rows
  end.

(** The loop that builds a [ZoteroItem] from each row of the cursor. *)
Definition item_of_row (row : ResultRow) : ZoteroItem :=
  let g := r_group row in
  {| item_id := g_itemID g;
     key := g_key g;
     item_type_id := g_itemTypeID g;
     title := g_title g;
     abstract := g_abstract g;
     creators := r_creators row;
     fulltext := None;
     notes := r_notes row;
     extra := g_extra g;
     date_added := g_dateAdded g;
     date_modified := g_dateModified g |}.

Definition get_items_with_text (db : Database) (limit : option Z)
  : list ZoteroItem :=
  item_of_row <$> run_query db limit.

(** [a] comes no later than [b] in a result ordered by modification time,
    descending: [b] was not modified after [a]. *)
Definition newer_first (a b : ZoteroItem) : Prop :=
  date_le (date_modified b) (date_modified a) = true.

Definition row_newer_first (x y : ResultRow) : Prop :=
  date_le (g_dateModified (r_group y)) (g_dateModified (r_group x)) = true.

(** The columns of an item record that come from the [items] table. *)
Definition of_items_row (it : ZoteroItem) (i : ItemsRow) : Prop :=
  item_id it = i_itemID i /\ key it = i_key i
  /\ item_type_id it = i_itemTypeID i
  /\ date_added it = i_dateAdded i /\ date_modified it = i_dateModified i.

(** [get_item_count]: [SELECT COUNT( * ) FROM items WHERE itemTypeID != 14] *)
Definition get_item_count (db : Database) : Z :=
  Z.of_nat (length (filter (fun i => i_itemTypeID i <> ATTACHMENT) (items db))).

(** The loop of [get_item_by_key]. *)
Fixpoint find_key (k : string) (items : list ZoteroItem) : option ZoteroItem :=
  match items with
  | [] => None
  | item :: rest => if decide (key item = k) then Some item else find_key k rest
  end.

Definition get_item_by_key (db : Database) (k : string) : option ZoteroItem :=
  find_key k (get_items_with_text db None).

(** [query_lower in item.get_searchable_text().lower()] *)
Definition matches (query_lower : string) (item : ZoteroItem) : bool :=
  str_in query_lower (lower (get_searchable_text item)).



(** *** The reader and its connection

    What [LocalZoteroReader] reads from outside: the platform name, the
    environment, [pathlib] on the file system, and [sqlite3.connect]. *)

Record Platform := mkPlatform {
  Path : Type;
  Connection : Type;
  (** [platform.system()] *)
  system : string;
  environ : gmap string string;
  (** [Path.home()], [p / name], [p.exists()], [str(p)] *)
  path_home : Path;
  path_child : Path -> string -> Path;
  path_exists : Path -> bool;
  path_str : Path -> string;
  (** [sqlite3.connect(uri, uri=True)] *)
  sqlite3_connect : string -> Exception + Connection
}.

Section Reader.
Context (pf : Platform).

Definition zotero_sqlite (base : Path pf) : Path pf :=
  path_child pf (path_child pf base "Zotero") "zotero.sqlite".

(** The candidate path of [_find_zotero_db], before the final test. *)
Definition candidate_db_path : Path pf :=
  if decide (system pf = "Darwin") then zotero_sqlite (path_home pf)
  else if decide (system pf = "Windows") then
    let db_path := zotero_sqlite (path_home pf) in
    if negb (path_exists pf db_path) then
      zotero_sqlite
        (path_child pf (path_child pf (path_home pf) "Documents and Settings")
           (default "" (environ pf !! "USERNAME")))
    else db_path
  else zotero_sqlite (path_home pf).

Definition _find_zotero_db : Exception + string :=
  let db_path := candidate_db_path in
  if negb (path_exists pf db_path) then
    inl (mkExc FileNotFoundError
           ("Zotero database not found at " +:+ path_str pf db_path +:+ ". "
              +:+ "Please ensure Zotero is installed and has been run at least once."))
  else inr (path_str pf db_path).

Record LocalZoteroReader := mkReader {
  db_path : string;
  _connection : option (Connection pf)
}.

(** [LocalZoteroReader.__init__]: [db_path or self._find_zotero_db()] *)
Definition reader_init (db_path : option string)
  : Exception + LocalZoteroReader :=
  if truthy db_path then inr (mkReader (default "" db_path) None)
  else
    match _find_zotero_db with
    | inl e => inl e
    | inr p => inr (mkReader p None)
    end.

(** What happened to connections, in order. *)
Inductive DbEvent :=
  | Connected (uri : string) (c : Connection pf)
  | Closed (c : Connection pf).

(** [_get_connection]: the result, the reader afterwards, the events. *)
Definition _get_connection (self : LocalZoteroReader) (events : list DbEvent)
  : (Exception + Connection pf) * LocalZoteroReader * list DbEvent :=
  match _connection self with
  | Some c => (inr c, self, events)
  | None =>
      let uri := "file:" +:+ db_path self +:+ "?mode=ro" in
      match sqlite3_connect pf uri with
      | inl e => (inl e, self, events)
      | inr c =>
          (inr c, mkReader (db_path self) (Some c), events ++ [Connected uri c])
      end
  end.

Definition close (self : LocalZoteroReader) (events : list DbEvent)
  : LocalZoteroReader * list DbEvent :=
  match _connection self with
  | Some c => (mkReader (db_path self) None, events ++ [Closed c])
  | None => (self, events)
  end.

(** [with reader as r: body(r)]: [__enter__] returns the reader,
    [__exit__] closes it and lets an exception of the body through. *)
Definition with_reader {A} (self : LocalZoteroReader)
    (body : LocalZoteroReader -> list DbEvent ->
            (Exception + A) * LocalZoteroReader * list DbEvent)
    (events : list DbEvent)
  : (Exception + A) * LocalZoteroReader * list DbEvent :=
  let '(r, self', events') := body self events in
  let '(self'', events'') := close self' events' in
  (r, self'', events'').



End Reader.

End LocalDb.

(** ** [chroma_client.py] *)

Module Chroma.

(** *** The process environment

    What the module reads from outside: [os.getenv], whether the optional
    packages can be imported, and [Path.home()]. *)

Record Env := mkEnv {
  environ : gmap string string;
  openai_installed : bool;
  genai_installed : bool;
  home : string
}.

Definition getenv (env : Env) (name : string) : option string :=
  environ env !! name.

(** *** Embedding functions

    An embedding function is identified by its provider and what the
    constructor stored in it; its vectors are opaque. *)

Inductive EmbeddingFunction :=
  | OpenAIEmbedding (model_name api_key : string)
  | GeminiEmbedding (model_name api_key : string)
  | DefaultEmbedding.

#[global] Instance EmbeddingFunction_eq_dec : EqDecision EmbeddingFunction.
Proof. solve_decision. Defined.

(** [OpenAIEmbeddingFunction.__init__] *)
Definition OpenAIEmbeddingFunction (env : Env) (model_name : string)
    (api_key : option string) : Exception + EmbeddingFunction :=
  let api_key := or_else api_key (getenv env "OPENAI_API_KEY") in
  if negb (truthy api_key) then
    inl (mkExc ValueError "OpenAI API key is required")
  else if openai_installed env then
    inr (OpenAIEmbedding model_name (default "" api_key))
  else
    inl (mkExc ImportError "openai package is required for OpenAI embeddings").

(** [GeminiEmbeddingFunction.__init__] *)
Definition GeminiEmbeddingFunction (env : Env) (model_name : string)
    (api_key : option string) : Exception + EmbeddingFunction :=
  let api_key :=
    or_else (or_else api_key (getenv env "GEMINI_API_KEY"))
            (getenv env "GOOGLE_API_KEY") in
  if negb (truthy api_key) then
    inl (mkExc ValueError "Gemini API key is required")
  else if genai_installed env then
    inr (GeminiEmbedding model_name (default "" api_key))
  else
    inl (mkExc ImportError
           "google-genai package is required for Gemini embeddings").

(** [ChromaClient._create_embedding_function], on the two attributes of
    [self] it reads. *)
Definition _create_embedding_function (env : Env) (embedding_model : string)
    (embedding_config : gmap string string) : Exception + EmbeddingFunction :=
  if decide (embedding_model = "openai") then
    let model_name :=
      default "text-embedding-3-small" (embedding_config !! "model_name") in
    let api_key := embedding_config !! "api_key" in
    OpenAIEmbeddingFunction env model_name api_key
  else if decide (embedding_model = "gemini") then
    let model_name :=
      default "models/text-embedding-004" (embedding_config !! "model_name") in
    let api_key := embedding_config !! "api_key" in
    GeminiEmbeddingFunction env model_name api_key
  else
    inr DefaultEmbedding.

(** *** The vector-store backend

    [chromadb] is an injected collaborator: the manager only calls it. A
    backend is any implementation of the calls the manager makes. Each call
    runs on the backend's state and either returns or raises. *)

Definition Metadata : Type := gmap string string.
Definition Where : Type := gmap string string.

Record Backend := mkBackend {
  State : Type;
  Collection : Type;
  QueryResult : Type;
  GetResult : Type;
  (** [results['ids']] and [result['ids']] *)
  query_ids : QueryResult -> list (list string);
  get_ids : GetResult -> list string;
  (** [chromadb.PersistentClient(path=..., settings=...)] *)
  PersistentClient : string -> State -> (Exception + unit) * State;
  get_or_create_collection :
    string -> EmbeddingFunction -> State -> (Exception + Collection) * State;
  create_collection :
    string -> EmbeddingFunction -> State -> (Exception + Collection) * State;
  delete_collection : string -> State -> (Exception + unit) * State;
  collection_add :
    Collection -> list string -> list Metadata -> list string ->
    State -> (Exception + unit) * State;
  collection_upsert :
    Collection -> list string -> list Metadata -> list string ->
    State -> (Exception + unit) * State;
  collection_query :
    Collection -> list string -> Z -> option Where -> option Where ->
    State -> (Exception + QueryResult) * State;
  collection_delete :
    Collection -> list string -> State -> (Exception + unit) * State;
  collection_count : Collection -> State -> (Exception + Z) * State;
  collection_get :
    Collection -> list string -> State -> (Exception + GetResult) * State
}.

(** *** The manager's monad: backend state, the log, exceptions *)

Inductive Level := INFO | WARNING | ERROR.

#[global] Instance Level_eq_dec : EqDecision Level.
Proof. solve_decision. Defined.

Record World (b : Backend) := mkWorld {
  store : State b;
  log : list (Level * string)
}.
Arguments mkWorld {b} _ _.
Arguments store {b} _.
Arguments log {b} _.

Definition M (b : Backend) (A : Type) : Type :=
  World b -> (Exception + A) * World b.

#[global] Instance M_ret b : MRet (M b) := fun A x w => (inr x, w).

#[global] Instance M_bind b : MBind (M b) := fun A B f m w =>
  match m w with
  | (inr x, w') => f x w'
  | (inl e, w') => (inl e, w')
  end.

(** [raise e] *)
Definition throw {b A} (e : Exception) : M b A := fun w => (inl e, w).

(** [try: body except Exception as e: handler] *)
Definition try_except {b A} (body : M b A) (handler : Exception -> M b A)
  : M b A := fun w =>
  match body w with
  | (inr x, w') => (inr x, w')
  | (inl e, w') => handler e w'
  end.

(** A call into the backend. *)
Definition call {b A} (f : State b -> (Exception + A) * State b) : M b A :=
  fun w => let '(r, s) := f (store w) in (r, mkWorld s (log w)).

(** A pure computation that can raise. *)
Definition lift {b A} (r : Exception + A) : M b A := fun w => (r, w).

Definition logger_info {b} (msg : string) : M b unit :=
  fun w => (inr (), mkWorld (store w) (log w ++ [(INFO, msg)])).

Definition logger_error {b} (msg : string) : M b unit :=
  fun w => (inr (), mkWorld (store w) (log w ++ [(ERROR, msg)])).

(** The world after a failed backend call that left the store [s], with the
    error logged under the operation's message. *)
Definition error_logged {b} (w : World b) (s : State b) (msg : string)
  : World b :=
  mkWorld s (log w ++ [(ERROR, msg)]).

(** [l[0]] *)
Definition index0 {b A} (l : list A) : M b A :=
  match l with
  | x :: _ => mret x
  | [] => throw (mkExc IndexError "list index out of range")
  end.

(** [len(l)] inside an f-string. *)
Definition fmt_len {A} (l : list A) : string := pretty (length l).

(** *** [ChromaClient] *)

Record ChromaClient (b : Backend) := mkChromaClient {
  collection_name : string;
  embedding_model : string;
  embedding_config : gmap string string;
  persist_directory : string;
  embedding_function : EmbeddingFunction;
  collection : Collection b
}.
Arguments mkChromaClient {b} _ _ _ _ _ _.
Arguments collection_name {b} _.
Arguments embedding_model {b} _.
Arguments embedding_config {b} _.
Arguments persist_directory {b} _.
Arguments embedding_function {b} _.
Arguments collection {b} _.

(** The dictionary [get_collection_info] returns; ["error"] is present only
    in the degraded result. *)
Record CollectionInfo := mkInfo {
  info_name : string;
  info_count : Z;
  info_embedding_model : string;
  info_persist_directory : string;
  info_error : option string
}.

Section Manager.
Context {b : Backend}.

(** [ChromaClient.__init__]. Creating the configuration directory is an
    effect on the file system, outside this model. *)
Definition __init__ (env : Env) (collection_name : string)
    (persist_directory : option string) (embedding_model : string)
    (embedding_config : option (gmap string string)) : M b (ChromaClient b) :=
  let embedding_config := default ∅ embedding_config in
  let persist_directory :=
    match persist_directory with
    | Some d => d
    | None => home env +:+ "/.config/zotero-mcp" +:+ "/chroma_db"
    end in
  call (PersistentClient b persist_directory);;
  embedding_function ←
    lift (_create_embedding_function env embedding_model embedding_config);
  collection ←
    call (get_or_create_collection b collection_name embedding_function);
  mret (mkChromaClient collection_name embedding_model embedding_config
          persist_directory embedding_function collection).

Definition add_documents (self : ChromaClient b) (documents : list string)
    (metadatas : list Metadata) (ids : list string) : M b unit :=
  try_except
    (call (collection_add b (collection self) documents metadatas ids);;
     logger_info
       ("Added " +:+ fmt_len documents +:+ " documents to ChromaDB collection"))
    (fun e =>
       logger_error ("Error adding documents to ChromaDB: " +:+ exc_str e);;
       throw e).

Definition upsert_documents (self : ChromaClient b) (documents : list string)
    (metadatas : list Metadata) (ids : list string) : M b unit :=
  try_except
    (call (collection_upsert b (collection self) documents metadatas ids);;
     logger_info
       ("Upserted " +:+ fmt_len documents
          +:+ " documents to ChromaDB collection"))
    (fun e =>
       logger_error ("Error upserting documents to ChromaDB: " +:+ exc_str e);;
       throw e).

Definition search (self : ChromaClient b) (query_texts : list string)
    (n_results : Z) (where_ where_document : option Where)
  : M b (QueryResult b) :=
  try_except
    (results ←
       call (collection_query b (collection self) query_texts n_results
               where_ where_document);
     first ← index0 (query_ids b results);
     logger_info
       ("Semantic search returned " +:+ fmt_len first +:+ " results");;
     mret results)
    (fun e =>
       logger_error ("Error performing semantic search: " +:+ exc_str e);;
       throw e).

Definition delete_documents (self : ChromaClient b) (ids : list string)
  : M b unit :=
  try_except
    (call (collection_delete b (collection self) ids);;
     logger_info
       ("Deleted " +:+ fmt_len ids +:+ " documents from ChromaDB collection"))
    (fun e =>
       logger_error ("Error deleting documents from ChromaDB: " +:+ exc_str e);;
       throw e).

Definition get_collection_info (self : ChromaClient b) : M b CollectionInfo :=
  try_except
    (count ← call (collection_count b (collection self));
     mret (mkInfo (collection_name self) count (embedding_model self)
             (persist_directory self) None))
    (fun e =>
       logger_error ("Error getting collection info: " +:+ exc_str e);;
       mret (mkInfo (collection_name self) 0 (embedding_model self)
               (persist_directory self) (Some (exc_str e)))).

(** [reset_collection]; it assigns [self.collection], so it returns the
    updated [self]. *)
Definition reset_collection (self : ChromaClient b) : M b (ChromaClient b) :=
  try_except
    (call (delete_collection b (collection_name self));;
     collection ←
       call (create_collection b (collection_name self)
               (embedding_function self));
     logger_info
       ("Reset ChromaDB collection '" +:+ collection_name self +:+ "'");;
     mret (mkChromaClient (collection_name self) (embedding_model self)
             (embedding_config self) (persist_directory self)
             (embedding_function self) collection))
    (fun e =>
       logger_error ("Error resetting collection: " +:+ exc_str e);;
       throw e).

Definition document_exists (self : ChromaClient b) (doc_id : string)
  : M b bool :=
  try_except
    (result ← call (collection_get b (collection self) [doc_id]);
     mret (bool_decide (0 < length (get_ids b result))%nat))
    (fun _ => mret false).

End Manager.

(** *** [create_chroma_client] *)

(** The ["semantic_search"] object of the configuration file: the keys the
    factory reads, each present or not. *)
Record FileConfig := mkFileConfig {
  f_collection_name : option string;
  f_embedding_model : option string;
  f_embedding_config : option (gmap string string)
}.

(** What [os.path.exists], [open] and [json.load] give for a path: no such
    file, an exception while loading, or the loaded document with its
    ["semantic_search"] entry if it has one. *)
Inductive ConfigFile :=
  | Missing
  | Unreadable (e : Exception)
  | Loaded (semantic_search : option FileConfig).

(** The dictionary [config] of the factory. *)
Record Config := mkConfig {
  c_collection_name : string;
  c_embedding_model : string;
  c_embedding_config : gmap string string
}.

Definition default_config : Config := mkConfig "zotero_library" "default" ∅.

(** [config.update(file_config.get("semantic_search", {}))] *)
Definition config_update (config : Config) (semantic_search : option FileConfig)
  : Config :=
  match semantic_search with
  | None => config
  | Some fc =>
      mkConfig
        (default (c_collection_name config) (f_collection_name fc))
        (default (c_embedding_model config) (f_embedding_model fc))
        (default (c_embedding_config config) (f_embedding_config fc))
  end.

(** The part of the factory that reads the environment. *)
Definition env_overrides (env : Env) (config : Config) : Config :=
  let env_embedding_model := getenv env "ZOTERO_EMBEDDING_MODEL" in
  let config :=
    if truthy env_embedding_model then
      mkConfig (c_collection_name config) (default "" env_embedding_model)
        (c_embedding_config config)
    else config in
  if decide (c_embedding_model config = "openai") then
    let openai_api_key := getenv env "OPENAI_API_KEY" in
    let openai_model :=
      default "text-embedding-3-small" (getenv env "OPENAI_EMBEDDING_MODEL") in
    if truthy openai_api_key then
      mkConfig (c_collection_name config) (c_embedding_model config)
        {[ "api_key" := default "" openai_api_key;
           "model_name" := openai_model ]}
    else config
  else if decide (c_embedding_model config = "gemini") then
    let gemini_api_key :=
      or_else (getenv env "GEMINI_API_KEY") (getenv env "GOOGLE_API_KEY") in
    let gemini_model :=
      default "models/text-embedding-004"
        (getenv env "GEMINI_EMBEDDING_MODEL") in
    if truthy gemini_api_key then
      mkConfig (c_collection_name config) (c_embedding_model config)
        {[ "api_key" := default "" gemini_api_key;
           "model_name" := gemini_model ]}
    else config
  else config.

Section Factory.
Context {b : Backend}.

Definition logger_warning (msg : string) : M b unit :=
  fun w => (inr (), mkWorld (store w) (log w ++ [(WARNING, msg)])).

(** The part of the factory that reads the file; [read] is the file
    system. *)
Definition load_file_config (config_path : option string)
    (read : string -> ConfigFile) : M b Config :=
  if truthy config_path then
    let path := default "" config_path in
    match read path with
    | Missing => mret default_config
    | Loaded semantic_search =>
        mret (config_update default_config semantic_search)
    | Unreadable e =>
        logger_warning
          ("Error loading config from " +:+ path +:+ ": " +:+ exc_str e);;
        mret default_config
    end
  else mret default_config.

Definition create_chroma_client (env : Env) (config_path : option string)
    (read : string -> ConfigFile) : M b (ChromaClient b) :=
  config ← load_file_config config_path read;
  let config := env_overrides env config in
  __init__ env (c_collection_name config) None (c_embedding_model config)
    (Some (c_embedding_config config)).

End Factory.

(** *** The calls of the remote embedding functions *)

Section Calls.
Context {Vector : Type}.

(** The two remote services, as the embedding functions call them: the
    response of [client.models.embed_content] to one text, given the texts
    requested before it, and the response of [client.embeddings.create] to
    a list of texts. A response is the list of its embeddings. *)
Context (embed_content : list string -> string -> string -> Exception + list Vector).
Context (embeddings_create : string -> list string -> Exception + list Vector).

(** The loop of [GeminiEmbeddingFunction.__call__]; [sent] are the texts
    requested so far. *)
Fixpoint gemini_loop (model_name : string) (input : list string)
    (embeddings : list Vector) (sent : list string)
  : (Exception + list Vector) * list string :=
  match input with
  | [] => (inr embeddings, sent)
  | text :: rest =>
      match embed_content sent model_name text with
      | inl e => (inl e, sent ++ [text])
      | inr [] =>
          (inl (mkExc IndexError "list index out of range"), sent ++ [text])
      | inr (v :: _) =>
          gemini_loop model_name rest (embeddings ++ [v]) (sent ++ [text])
      end
  end.

Definition Gemini__call__ (model_name : string) (input : list string)
    (sent : list string) : (Exception + list Vector) * list string :=
  gemini_loop model_name input [] sent.

(** [OpenAIEmbeddingFunction.__call__]; [sent] are the requests so far,
    each with the list of its texts. *)
Definition OpenAI__call__ (model_name : string) (input : list string)
    (sent : list (list string))
  : (Exception + list Vector) * list (list string) :=
  (embeddings_create model_name input, sent ++ [input]).

End Calls.

(** *** Two backends

    [Outage.backend] is a store that answers while it is online and raises
    on every call while it is not. *)

Module Outage.

Definition unreachable : Exception := mkExc RuntimeError "backend unreachable".

Definition answer {A} (x : A) (online : bool) : (Exception + A) * bool :=
  if online then (inr x, online) else (inl unreachable, online).

Definition backend : Backend := {|
  State := bool;
  Collection := string;
  QueryResult := list (list string);
  GetResult := list string;
  query_ids := fun r => r;
  get_ids := fun r => r;
  PersistentClient := fun _ => answer ();
  get_or_create_collection := fun name _ => answer name;
  create_collection := fun name _ => answer name;
  delete_collection := fun _ => answer ();
  collection_add := fun _ _ _ _ => answer ();
  collection_upsert := fun _ _ _ _ => answer ();
  collection_query := fun _ texts _ _ _ => answer ((fun _ => []) <$> texts);
  collection_delete := fun _ _ => answer ();
  collection_count := fun _ => answer 0;
  collection_get := fun _ _ => answer []
|}.

End Outage.

(** [Mem.backend] is an in-memory vector store. *)

Module Mem.

(** Modelled from the spec: the stored document of the data model, with its
    id as the key of the map it is stored in: text, metadata, and the
    provider that computed its (opaque) embedding. The vector store is
    chromadb, which is not part of the sources. *)
Record Doc := mkDoc {
  doc_text : string;
  doc_metadata : Metadata;
  doc_embedder : EmbeddingFunction
}.

(** Modelled from the spec: a persisted collection: its documents by id,
    and the embedding function it was created with. *)
Record Stored := mkStored {
  created_with : EmbeddingFunction;
  stored : gmap string Doc
}.

(** Modelled from the spec: the persisted location, a map from collection
    names to collections (a name that is absent is the state Absent), and
    the trace of the calls made to embedding functions. *)
Record MemState := mkMemState {
  collections : gmap string Stored;
  embed_calls : list (EmbeddingFunction * list string)
}.

(** Modelled from the spec: the collection object a manager holds: the name
    it is attached to and the embedding function injected when it was
    obtained, with which the backend embeds texts for this object. *)
Record Handle := mkHandle {
  h_name : string;
  h_embedding_function : EmbeddingFunction
}.

(** Modelled from the spec: the backend's similarity metric and filters,
    which rank the documents of a collection for one query text. *)
Definition Ranking : Type :=
  EmbeddingFunction -> string -> option Where -> option Where ->
  list (string * Doc) -> list (string * Doc).

(** Modelled from the spec: an operation on a collection that is Absent
    fails; every operation requires Open. *)
Definition absent (name : string) : Exception :=
  mkExc ValueError ("Collection " +:+ name +:+ " does not exist").

(** Modelled from the spec: idempotent get-or-create against the persisted
    location. *)
Definition mem_get_or_create (name : string) (ef : EmbeddingFunction)
    (s : MemState) : (Exception + Handle) * MemState :=
  match collections s !! name with
  | Some _ => (inr (mkHandle name ef), s)
  | None =>
      (inr (mkHandle name ef),
       mkMemState (<[name := mkStored ef ∅]> (collections s)) (embed_calls s))
  end.

(** Modelled from the spec: creation of a collection under a name that is
    Absent. *)
Definition mem_create (name : string) (ef : EmbeddingFunction)
    (s : MemState) : (Exception + Handle) * MemState :=
  match collections s !! name with
  | Some _ =>
      (inl (mkExc ValueError ("Collection " +:+ name +:+ " already exists")), s)
  | None =>
      (inr (mkHandle name ef),
       mkMemState (<[name := mkStored ef ∅]> (collections s)) (embed_calls s))
  end.

(** Modelled from the spec: destruction of a collection; all documents are
    lost. *)
Definition mem_delete_collection (name : string) (s : MemState)
  : (Exception + unit) * MemState :=
  match collections s !! name with
  | Some _ => (inr (), mkMemState (delete name (collections s)) (embed_calls s))
  | None => (inl (absent name), s)
  end.

(** Modelled from the spec: the batch of a write, one (id, document,
    metadata) per position, or nothing when the three lists differ in
    length. *)
Definition batch (documents : list string) (metadatas : list Metadata)
    (ids : list string) : option (list (string * (string * Metadata))) :=
  if decide (length documents = length ids /\ length metadatas = length ids)
  then Some (zip ids (zip documents metadatas))
  else None.

(** Modelled from the spec: insert-or-replace of one document, embedded by
    [ef]. *)
Definition put (ef : EmbeddingFunction) (docs : gmap string Doc)
    (x : string * (string * Metadata)) : gmap string Doc :=
  <[x.1 := mkDoc x.2.1 x.2.2 ef]> docs.

(** Modelled from the spec: a write embeds the documents with the bound
    provider and persists the whole batch, or the whole batch is rejected. *)
Definition write (h : Handle) (c : Stored) (documents : list string)
    (xs : list (string * (string * Metadata))) (s : MemState) : MemState :=
  let ef := h_embedding_function h in
  mkMemState
    (<[h_name h := mkStored (created_with c) (foldl (put ef) (stored c) xs)]>
       (collections s))
    (embed_calls s ++ [(ef, documents)]).

(** Modelled from the spec: the rejection of a whole batch. *)
Definition mismatch : Exception :=
  mkExc ValueError "documents, metadatas and ids differ in length".

(** Modelled from the spec: [add] fails if any id already exists. *)
Definition mem_add (h : Handle) (documents : list string)
    (metadatas : list Metadata) (ids : list string) (s : MemState)
  : (Exception + unit) * MemState :=
  match collections s !! h_name h, batch documents metadatas ids with
  | None, _ => (inl (absent (h_name h)), s)
  | Some _, None => (inl mismatch, s)
  | Some c, Some xs =>
      if decide (Exists (fun i => is_Some (stored c !! i)) ids)
      then (inl (mkExc ValueError "id already exists"), s)
      else (inr (), write h c documents xs s)
  end.

(** Modelled from the spec: [upsert] is insert-or-replace. *)
Definition mem_upsert (h : Handle) (documents : list string)
    (metadatas : list Metadata) (ids : list string) (s : MemState)
  : (Exception + unit) * MemState :=
  match collections s !! h_name h, batch documents metadatas ids with
  | None, _ => (inl (absent (h_name h)), s)
  | Some _, None => (inl mismatch, s)
  | Some c, Some xs => (inr (), write h c documents xs s)
  end.

(** Modelled from the spec: [delete] removes documents and is a no-op for
    ids that do not exist. *)
Definition mem_delete (h : Handle) (ids : list string) (s : MemState)
  : (Exception + unit) * MemState :=
  match collections s !! h_name h with
  | None => (inl (absent (h_name h)), s)
  | Some c =>
      (inr (),
       mkMemState
         (<[h_name h :=
              mkStored (created_with c)
                (foldl (fun m i => delete i m) (stored c) ids)]>
            (collections s))
         (embed_calls s))
  end.

(** Modelled from the spec: [query] embeds each query text with the bound
    provider and returns, for each, at most [n_results] documents in the
    order of the similarity metric. *)
Definition mem_query (rank : Ranking) (h : Handle) (query_texts : list string)
    (n_results : Z) (where_ where_document : option Where) (s : MemState)
  : (Exception + list (list (string * Doc))) * MemState :=
  match collections s !! h_name h with
  | None => (inl (absent (h_name h)), s)
  | Some c =>
      let ef := h_embedding_function h in
      (inr ((fun q =>
               take (Z.to_nat n_results)
                 (rank ef q where_ where_document
                    (map_to_list (stored c)))) <$> query_texts),
       mkMemState (collections s) (embed_calls s ++ [(ef, query_texts)]))
  end.

(** Modelled from the spec: the number of documents of the collection. *)
Definition mem_count (h : Handle) (s : MemState) : (Exception + Z) * MemState :=
  match collections s !! h_name h with
  | None => (inl (absent (h_name h)), s)
  | Some c => (inr (Z.of_nat (size (stored c))), s)
  end.

(** Modelled from the spec: the documents stored under the given ids. *)
Definition mem_get (h : Handle) (ids : list string) (s : MemState)
  : (Exception + list (string * Doc)) * MemState :=
  match collections s !! h_name h with
  | None => (inl (absent (h_name h)), s)
  | Some c =>
      (inr (omap (fun i => (fun d => (i, d)) <$> stored c !! i) ids), s)
  end.

(** Modelled from the spec: the vector-store backend at the injection
    boundary, with the operations above. *)
Definition backend (rank : Ranking) : Backend := {|
  State := MemState;
  Collection := Handle;
  QueryResult := list (list (string * Doc));
  GetResult := list (string * Doc);
  query_ids := fun r => (fun l : list (string * Doc) => fst <$> l) <$> r;
  get_ids := fun r => fst <$> r;
  PersistentClient := fun _ s => (inr (), s);
  get_or_create_collection := mem_get_or_create;
  create_collection := mem_create;
  delete_collection := mem_delete_collection;
  collection_add := mem_add;
  collection_upsert := mem_upsert;
  collection_query := mem_query rank;
  collection_delete := mem_delete;
  collection_count := mem_count;
  collection_get := mem_get
|}.

(** A similarity metric for examples: the documents in the order of their
    ids. *)
Definition by_id : Ranking := fun _ _ _ _ docs => docs.

Definition empty : World (backend by_id) :=
  mkWorld (mkMemState ∅ [] : State (backend by_id)) [].

End Mem.

End Chroma.

(** ** Sample data *)

Module Samples.
Import LocalDb.

Fixpoint str_repeat (c : ascii) (n : nat) : string :=
  match n with
  | O => EmptyString
  | S n' => String c (str_repeat c n')
  end.

Definition bare_item (ft : option string) : ZoteroItem :=
  {| item_id := 1; key := "ABCD1234"; item_type_id := 2;
     title := Some "Deep Learning"; abstract := Some "neural nets";
     creators := None; fulltext := ft; notes := None; extra := Some "";
     date_added := None; date_modified := None |}.

(** A full text of 5001 characters. *)
Definition long_text : string := str_repeat "x"%char (Z.to_nat 5001).

Definition long_item : ZoteroItem := bare_item (Some long_text).
Definition short_item : ZoteroItem := bare_item (Some "body").

(** A library with one book that has two child notes and two creators,
    the two notes as items of their own, and one attachment. *)
Definition library : Database :=
  mkDatabase
    [ mkItemsRow 1 "ABCD1234" 2 (Some "2024-01-01 10:00:00")
        (Some "2024-03-01 10:00:00");
      mkItemsRow 2 "NOTE0001" 1 (Some "2024-01-02 10:00:00")
        (Some "2024-01-02 10:00:00");
      mkItemsRow 3 "NOTE0002" 1 (Some "2024-01-03 10:00:00")
        (Some "2024-01-03 10:00:00");
      mkItemsRow 4 "ATTACH01" 14 (Some "2024-01-04 10:00:00")
        (Some "2024-05-01 10:00:00") ]
    [ mkItemDataRow 1 1 100; mkItemDataRow 1 2 101 ]
    [ mkItemDataValuesRow 100 (Some "Deep Learning");
      mkItemDataValuesRow 101 (Some "neural nets") ]
    [ mkItemNotesRow 2 (Some 1) (Some "n1");
      mkItemNotesRow 3 (Some 1) (Some "n2") ]
    [ mkItemCreatorsRow 1 10; mkItemCreatorsRow 1 11 ]
    [ mkCreatorsRow 10 (Some "Ian") (Some "Goodfellow");
      mkCreatorsRow 11 None (Some "Bengio") ].

(** A Linux machine in local mode whose only file is the database at the
    standard location; paths are lists of names under the root. *)
Definition standard_db : list string := ["home"; "u"; "Zotero"; "zotero.sqlite"].

Definition render (p : list string) : string :=
  String.concat "" ((fun name => "/" +:+ name) <$> p).

Definition linux : Platform := {|
  Path := list string;
  Connection := string;
  system := "Linux";
  LocalDb.environ := {[ "ZOTERO_LOCAL" := "TRUE" ]};
  path_home := ["home"; "u"];
  path_child := fun p name => p ++ [name];
  path_exists := fun p => bool_decide (p = standard_db);
  path_str := render;
  sqlite3_connect := fun uri =>
    if decide (uri = "file:/home/u/Zotero/zotero.sqlite?mode=ro")
    then inr uri
    else inl (mkExc RuntimeError "unable to open database file")
|}.

Import Chroma.

(** An environment with no credentials, and one with an OpenAI key. *)
Definition env_plain : Env := mkEnv ∅ true true "/home/u".
Definition env_key : Env :=
  mkEnv {[ "OPENAI_API_KEY" := "sk-test" ]} true true "/home/u".

(** A manager of the store [Outage.backend]. *)
Definition outage_client : ChromaClient Outage.backend :=
  mkChromaClient "zotero_library" "default" ∅ "/db" DefaultEmbedding
    ("zotero_library" : Collection Outage.backend).

Definition online : World Outage.backend := mkWorld (true : State Outage.backend) [].
Definition offline : World Outage.backend := mkWorld (false : State Outage.backend) [].


Definition openai_default : EmbeddingFunction :=
  OpenAIEmbedding "text-embedding-3-small" "sk-test".




(** The manager the factory builds over [Outage.backend] from a file that
    asks for OpenAI, in the environment [env_key]. *)
Definition openai_file (_ : string) : ConfigFile :=
  Loaded (Some (mkFileConfig None (Some "openai")
                  (Some {[ "api_key" := "sk-file" ]}))).

Definition factory_client : ChromaClient Outage.backend :=
  mkChromaClient "zotero_library" "openai"
    {[ "api_key" := "sk-test"; "model_name" := "text-embedding-3-small" ]}
    "/home/u/.config/zotero-mcp/chroma_db" openai_default
    ("zotero_library" : Collection Outage.backend).

(** A service that answers the first two texts and then fails. *)
Definition two_then_fail (sent : list string) (model text : string)
  : Exception + list nat :=
  if decide (length sent < 2)%nat then inr [length sent]
  else inl (mkExc RuntimeError "quota exceeded").

End Samples.

(** * Properties *)

Import Utils LocalDb Chroma.

(** ** Strings *)

Section Strings.

Lemma app_cons (c : ascii) (s t : string) :
  String c s +:+ t = String c (s +:+ t).
Proof. reflexivity. Qed.

Lemma str_take_length (n : nat) (s : string) :
  (n <= String.length s)%nat -> String.length (str_take n s) = n.
Proof.
  revert s; induction n as [|n IH]; intros [|c s] Hn; simpl in *;
    try reflexivity; try lia.
  rewrite IH by lia. reflexivity.
Qed.

Lemma str_take_prefix (n : nat) (s : string) :
  exists rest, s = str_take n s +:+ rest.
Proof.
  revert s; induction n as [|n IH]; intros s.
  - exists s. destruct s; reflexivity.
  - destruct s as [|c s]; [exists EmptyString; reflexivity|].
    destruct (IH s) as [rest Hrest]. exists rest.
    simpl. rewrite app_cons. congruence.
Qed.

Lemma str_take_all (n : nat) (s : string) :
  (String.length s <= n)%nat -> str_take n s = s.
Proof.
  revert s; induction n as [|n IH]; intros [|c s] Hn; simpl in *;
    try reflexivity; try lia.
  rewrite IH by lia. reflexivity.
Qed.



Lemma nonempty_true (s : string) : nonempty s = true <-> s <> EmptyString.
Proof. destruct s; simpl; split; congruence. Qed.




End Strings.

(** ** The searchable text of an item record *)

Section SearchableText.








Lemma without_fulltext_parts (it : ZoteroItem) (ft : string) :
  fulltext it = Some ft ->
  searchable_parts it
  = searchable_parts (without_fulltext it)
    ++ (if nonempty ft then ["Content: " +:+ truncated_fulltext ft] else []).
Proof.
  intros Hft. unfold searchable_parts. rewrite Hft. simpl.
  destruct (nonempty ft); [done | by rewrite app_nil_r].
Qed.

(** C4. A full text longer than 5000 characters yields a [Content:] section
    made of its first 5000 characters followed by ["..."]; a non-empty full
    text of at most 5000 characters is reproduced verbatim, with no marker.
    In both cases the section is the last one of the searchable text; an
    empty full text has no section. *)
Theorem content_section_truncation (it : ZoteroItem) (ft : string) :
  fulltext it = Some ft ->
  (len ft > 5000 ->
     let kept := str_take (Z.to_nat 5000) ft in
     len kept = 5000 /\ (exists rest, ft = kept +:+ rest) /\
     get_searchable_text it
     = String.concat (LF +:+ LF)
         (searchable_parts (without_fulltext it)
            ++ ["Content: " +:+ kept +:+ "..."])) /\
  (0 < len ft <= 5000 ->
     get_searchable_text it
     = String.concat (LF +:+ LF)
         (searchable_parts (without_fulltext it) ++ ["Content: " +:+ ft])) /\
  (len ft = 0 ->
     get_searchable_text it = get_searchable_text (without_fulltext it)).
Proof.
  intros Hft. unfold get_searchable_text.
  rewrite (without_fulltext_parts it ft Hft). unfold truncated_fulltext.
  assert (Hne : 0 < len ft -> nonempty ft = true).
  { unfold len. destruct ft; simpl; [lia | done]. }
  split.
  - intros Hlong. cbv zeta. rewrite Hne by lia.
    destruct (Z.gtb_spec (len ft) 5000) as [_|]; [|lia].
    split; [|split; [apply str_take_prefix | reflexivity]].
    unfold len in *. rewrite str_take_length by lia. reflexivity.
  - split.
    + intros [Hpos Hshort]. rewrite Hne by lia.
      destruct (Z.gtb_spec (len ft) 5000) as [|_]; [lia | reflexivity].
    + intros Hzero. destruct ft; [|unfold len in Hzero; simpl in Hzero; lia].
      simpl. by rewrite app_nil_r.
Qed.

Lemma content_section_truncation_witness :
  (len (str_take (Z.to_nat 5000) Samples.long_text) = 5000 /\
   (exists rest,
      Samples.long_text = str_take (Z.to_nat 5000) Samples.long_text +:+ rest) /\
   get_searchable_text Samples.long_item
   = String.concat (LF +:+ LF)
       (searchable_parts (without_fulltext Samples.long_item)
          ++ ["Content: " +:+ str_take (Z.to_nat 5000) Samples.long_text
                +:+ "..."])) /\
  get_searchable_text Samples.short_item
  = String.concat (LF +:+ LF)
      (searchable_parts (without_fulltext Samples.short_item)
         ++ ["Content: " +:+ "body"]).
Proof.
  split.
  - apply (content_section_truncation Samples.long_item Samples.long_text
             eq_refl).
    vm_compute. reflexivity.
  - apply (content_section_truncation Samples.short_item "body" eq_refl).
    split; vm_compute; [reflexivity | discriminate].
Defined.



End SearchableText.

(** ** Extraction from the relational store *)

Section Extraction.

Lemma date_le_total (a b : option string) :
  date_le a b = false -> date_le b a = true.
Proof.
  destruct a as [x|], b as [y|]; simpl; try done.
  destruct (String.leb_total x y); congruence.
Qed.

Lemma date_le_trans (a b c : option string) :
  date_le a b = true -> date_le b c = true -> date_le a c = true.
Proof.
  destruct a as [x|], b as [y|], c as [z|]; simpl; try done.
  intros Hxy%Is_true_true Hyz%Is_true_true. apply Is_true_true.
  change (String.le x z). by trans y.
Qed.

#[local] Instance row_newer_first_trans : Transitive row_newer_first.
Proof. intros x y z Hxy Hyz. eapply date_le_trans; eassumption. Qed.

#[local] Instance newer_first_trans : Transitive newer_first.
Proof. intros x y z Hxy Hyz. eapply date_le_trans; eassumption. Qed.

Lemma insert_desc_perm (x : ResultRow) (l : list ResultRow) :
  insert_desc x l ≡ₚ x :: l.
Proof.
  induction l as [|y l IH]; simpl; [done|].
  case_match; [done|]. rewrite IH. apply Permutation_swap.
Qed.

Lemma insert_desc_sorted (x : ResultRow) (l : list ResultRow) :
  Sorted row_newer_first l -> Sorted row_newer_first (insert_desc x l).
Proof.
  induction 1 as [|y l Hl IH Hhd]; simpl.
  - repeat constructor.
  - destruct (date_le _ _) eqn:Hle.
    + constructor; [by constructor | by constructor].
    + constructor; [exact IH|].
      apply date_le_total in Hle.
      destruct Hhd as [|z l' Hyz]; simpl.
      * by constructor.
      * case_match; by constructor.
Qed.

Lemma order_by_desc_perm (l : list ResultRow) : order_by_desc l ≡ₚ l.
Proof.
  induction l as [|x l IH]; simpl; [done|].
  by rewrite insert_desc_perm, IH.
Qed.

Lemma order_by_desc_sorted (l : list ResultRow) :
  StronglySorted row_newer_first (order_by_desc l).
Proof.
  apply Sorted_StronglySorted; [apply _|].
  induction l as [|x l IH]; simpl; [constructor|].
  by apply insert_desc_sorted.
Qed.

Lemma StronglySorted_take {A} (R : relation A) (n : nat) (l : list A) :
  StronglySorted R l -> StronglySorted R (take n l).
Proof.
  intros Hl. rewrite <- (take_drop n l) in Hl.
  by apply StronglySorted_app_1_l in Hl.
Qed.

Lemma add_to_group_key (k : GroupKey) (r : Joined)
    (gs : list (GroupKey * list Joined)) (g : GroupKey * list Joined) :
  g ∈ add_to_group k r gs -> g.1 = k \/ exists g', g' ∈ gs /\ g.1 = g'.1.
Proof.
  induction gs as [|[k' rs] gs IH]; simpl.
  - intros ->%list_elem_of_singleton. by left.
  - case_decide as Hk.
    + intros [->|Hg]%elem_of_cons; [by left|].
      right. exists g. split; [by apply list_elem_of_further | done].
    + intros [->|Hg]%elem_of_cons.
      * right. exists (k', rs). split; [apply list_elem_of_here | done].
      * destruct (IH Hg) as [?|(g' & Hg' & ?)]; [by left|].
        right. exists g'. split; [by apply list_elem_of_further | done].
Qed.

(** Every group of the [GROUP BY] has the grouping columns of a row. *)
Lemma group_by_key (rows : list Joined) (g : GroupKey * list Joined) :
  g ∈ group_by rows -> exists r, r ∈ rows /\ g.1 = group_key r.
Proof.
  unfold group_by. revert g.
  induction rows as [|r rows IH] using rev_ind; intros g.
  - by intros ?%elem_of_nil.
  - rewrite foldl_app. simpl.
    intros [Hk|(g' & Hg' & Hk)]%add_to_group_key.
    + exists r. split; [|done]. apply elem_of_app. right.
      apply list_elem_of_here.
    + destruct (IH g' Hg') as (r' & Hr' & Hk').
      exists r'. split; [|congruence]. apply elem_of_app. by left.
Qed.

Lemma run_query_unlimited (db : Database) :
  run_query db None
  = order_by_desc (select_clause <$> group_by (where_clause (from_clause db))).
Proof. reflexivity. Qed.

(** With or without a limit, the rows of the cursor are rows of the
    unlimited query, in its order. *)
Lemma run_query_limit (db : Database) (limit : option Z) :
  exists n, run_query db limit = take n (run_query db None).
Proof.
  unfold run_query, sql_limit.
  set (rows := order_by_desc _).
  destruct limit as [n|]; [|exists (length rows); by rewrite firstn_all].
  destruct (n =? 0); [exists (length rows); by rewrite firstn_all|].
  destruct (n <? 0); [exists (length rows); by rewrite firstn_all|].
  by exists (Z.to_nat n).
Qed.

Lemma run_query_not_attachment (db : Database) (row : ResultRow) :
  row ∈ run_query db None -> g_itemTypeID (r_group row) <> ATTACHMENT.
Proof.
  rewrite run_query_unlimited, order_by_desc_perm.
  intros (g & -> & Hg)%list_elem_of_fmap.
  apply group_by_key in Hg as (r & Hr & Hk).
  apply list_elem_of_filter in Hr as [Htype _].
  simpl. rewrite Hk. exact Htype.
Qed.

(** C8. Whatever the limit, no record of [get_items_with_text] has the
    attachment type, and the records are ordered by [date_modified],
    descending: every record was modified no earlier than all the records
    after it. *)
Theorem extraction_excludes_attachments_and_orders (db : Database)
    (limit : option Z) :
  Forall (fun it => item_type_id it <> ATTACHMENT) (get_items_with_text db limit)
  /\ StronglySorted newer_first (get_items_with_text db limit).
Proof.
  unfold get_items_with_text.
  destruct (run_query_limit db limit) as [n ->].
  split.
  - apply Forall_forall. intros it (row & -> & Hrow)%list_elem_of_fmap.
    apply elem_of_take in Hrow as (i & Hrow & _).
    apply list_elem_of_lookup_2 in Hrow.
    by apply run_query_not_attachment in Hrow.
  - apply StronglySorted_fmap with (R1 := row_newer_first); [done|].
    apply StronglySorted_take. rewrite run_query_unlimited.
    apply order_by_desc_sorted.
Qed.

(** C3. On a library whose book has two notes and two creators, the
    joins pair every note with every creator before the aggregation: the
    record of the book carries each note twice and each creator twice,
    where the design document has each of them once. The creators are
    formatted as it says: ["Last, First"] with both name parts, the last
    name alone otherwise. *)
Theorem aggregation_repeats_notes_and_creators :
  (fun it => (key it, notes it, creators it))
    <$> get_items_with_text Samples.library None
  = [ ("ABCD1234", Some "n1 n1 n2 n2",
       Some "Goodfellow, Ian; Bengio; Goodfellow, Ian; Bengio");
      ("NOTE0002", Some "n2", None);
      ("NOTE0001", Some "n1", None) ].
Proof. vm_compute. reflexivity. Qed.


End Extraction.

(** ** [format_creators] *)

Section FormatCreators.

Implicit Types (c : gmap string string) (cs : list (gmap string string)).

Lemma foldl_add_creator (acc : list string) cs :
  foldl add_creator acc cs = acc ++ creator_names cs.
Proof.
  unfold creator_names. revert acc.
  induction cs as [|c cs IH]; intros acc; simpl; [by rewrite app_nil_r|].
  rewrite IH, (IH (add_creator [] c)), app_assoc. f_equal.
  unfold add_creator. repeat case_match; by rewrite ?app_nil_r.
Qed.

Lemma creator_names_cons c cs :
  creator_names (c :: cs) = add_creator [] c ++ creator_names cs.
Proof. unfold creator_names at 1. simpl. apply foldl_add_creator. Qed.

Lemma creator_names_app cs1 cs2 :
  creator_names (cs1 ++ cs2) = creator_names cs1 ++ creator_names cs2.
Proof.
  unfold creator_names at 1. rewrite foldl_app.
  fold (creator_names cs1). apply foldl_add_creator.
Qed.

Lemma add_creator_unusable c : ~ usable c -> add_creator [] c = [].
Proof.
  unfold usable, add_creator. intros Hc.
  destruct (c !! "firstName") eqn:?, (c !! "lastName") eqn:?,
    (c !! "name") eqn:?; try done; exfalso; apply Hc; eauto.
Qed.

Lemma add_creator_name_only c (n : string) :
  name_only c n -> add_creator [] c = [n].
Proof.
  unfold name_only, add_creator. intros [-> [-> | ->]]; [done|].
  by destruct (c !! "firstName").
Qed.

Lemma creator_names_unusable cs :
  Forall (fun c => ~ usable c) cs -> creator_names cs = [].
Proof.
  induction 1 as [|c cs Hc _ IH]; [done|].
  by rewrite creator_names_cons, add_creator_unusable, IH.
Qed.

(** What the loop renders for one creator is empty only for a creator with
    a single ["name"] that is the empty string. *)
Lemma add_creator_nonempty c (s : string) :
  (forall n, name_only c n -> n <> EmptyString) ->
  s ∈ add_creator [] c -> s <> EmptyString.
Proof.
  unfold name_only, add_creator. intros Hc.
  destruct (c !! "firstName") as [first|] eqn:Hf,
    (c !! "lastName") as [l|] eqn:Hl; simpl.
  - intros ->%list_elem_of_singleton. by destruct l.
  - destruct (c !! "name") as [n|]; [|by intros ?%elem_of_nil].
    intros ->%list_elem_of_singleton. apply Hc; auto.
  - destruct (c !! "name") as [n|]; [|by intros ?%elem_of_nil].
    intros ->%list_elem_of_singleton. apply Hc; auto.
  - destruct (c !! "name") as [n|]; [|by intros ?%elem_of_nil].
    intros ->%list_elem_of_singleton. apply Hc; auto.
Qed.

Lemma creator_names_nonempty cs (s : string) :
  Forall (fun c => forall n, name_only c n -> n <> EmptyString) cs ->
  s ∈ creator_names cs -> s <> EmptyString.
Proof.
  induction 1 as [|c cs Hc Hcs IH]; [by intros ?%elem_of_nil|].
  rewrite creator_names_cons.
  intros [Hs|Hs]%elem_of_app; [by eapply add_creator_nonempty | by apply IH].
Qed.

(** A join by ["; "] is empty only for the list of one empty string. *)
Lemma concat_empty (x : string) (l : list string) :
  String.concat "; " (x :: l) = EmptyString -> x = EmptyString /\ l = [].
Proof.
  destruct l as [|y l]; simpl; [done|].
  destruct x; [discriminate | by rewrite app_cons].
Qed.

(** The claim as it is written fails: a creator whose only field is an
    empty ["name"] is rendered as the empty string. *)
Lemma format_creators_empty_name :
  format_creators [ {[ "name" := EmptyString ]} ] = EmptyString.
Proof. vm_compute. reflexivity. Qed.

(** C10, amended. [format_creators] returns ["No authors listed"] for the
    empty list and for every list with no usable creator; a creator with a
    ["name"] and no firstName/lastName pair is rendered by that name, in
    its place; the result is the empty string exactly when the rendered
    names are the single empty name, so it is never empty when no
    name-only creator has an empty name. *)
Theorem format_creators_sentinel_and_names cs cs' c (n : string) :
  format_creators [] = "No authors listed"
  /\ (Forall (fun c => ~ usable c) cs -> format_creators cs = "No authors listed")
  /\ (name_only c n ->
      creator_names (cs ++ c :: cs') = creator_names cs ++ n :: creator_names cs')
  /\ (name_only c n -> format_creators [c] = n)
  /\ (format_creators cs = EmptyString <-> creator_names cs = [EmptyString])
  /\ (Forall (fun c => forall n, name_only c n -> n <> EmptyString) cs ->
      format_creators cs <> EmptyString).
Proof.
  assert (Hiff : format_creators cs = EmptyString
                 <-> creator_names cs = [EmptyString]).
  { unfold format_creators. destruct (creator_names cs) as [|x l] eqn:Hn.
    - split; discriminate.
    - split; [by intros [-> ->]%concat_empty | by intros [= -> ->]]. }
  split; [reflexivity|]. split; [|split; [|split; [|split; [exact Hiff|]]]].
  - intros Hcs. unfold format_creators.
    by rewrite creator_names_unusable.
  - intros Hc.
    by rewrite creator_names_app, creator_names_cons,
      (add_creator_name_only c n).
  - intros Hc. unfold format_creators.
    rewrite creator_names_cons, (add_creator_name_only c n) by done.
    reflexivity.
  - intros Hcs Hempty. apply Hiff in Hempty.
    apply (creator_names_nonempty cs EmptyString Hcs); [|done].
    rewrite Hempty. apply list_elem_of_here.
Qed.

Lemma format_creators_sentinel_and_names_witness :
  format_creators [ ∅ ; {[ "firstName" := "Ada" ]} ] = "No authors listed"
  /\ format_creators [ {[ "name" := "ACM" ]} ] = "ACM"
  /\ format_creators [ {[ "name" := "ACM" ]} ] <> EmptyString.
Proof.
  pose proof (format_creators_sentinel_and_names
                [ ∅ ; {[ "firstName" := "Ada" ]} ] [] {[ "name" := "ACM" ]} "ACM")
    as (_ & Hsentinel & _ & Hname & _ & _).
  pose proof (format_creators_sentinel_and_names
                [ {[ "name" := "ACM" ]} ] [] ∅ "")
    as (_ & _ & _ & _ & _ & Hnonempty).
  split; [|split].
  - apply Hsentinel. repeat constructor; unfold usable;
      intros [[[? H1] [? H2]] | [? H3]]; vm_compute in *; discriminate.
  - apply Hname. split; [reflexivity | left; reflexivity].
  - apply Hnonempty. repeat constructor.
    intros n [Hn _]. vm_compute in Hn. by injection Hn as <-.
Defined.

End FormatCreators.

(** ** Embedding providers *)

Section Providers.

Lemma or_else_falsy (a b : option string) :
  truthy a = false -> truthy b = false -> truthy (or_else a b) = false.
Proof. unfold or_else. by intros -> ->. Qed.

Lemma openai_requires_key (env : Env) (model_name : string)
    (api_key : option string) :
  truthy api_key = false ->
  truthy (getenv env "OPENAI_API_KEY") = false ->
  OpenAIEmbeddingFunction env model_name api_key
  = inl (mkExc ValueError "OpenAI API key is required").
Proof.
  intros Hk He. unfold OpenAIEmbeddingFunction.
  by rewrite (or_else_falsy _ _ Hk He).
Qed.

Lemma gemini_requires_key (env : Env) (model_name : string)
    (api_key : option string) :
  truthy api_key = false ->
  truthy (getenv env "GEMINI_API_KEY") = false ->
  truthy (getenv env "GOOGLE_API_KEY") = false ->
  GeminiEmbeddingFunction env model_name api_key
  = inl (mkExc ValueError "Gemini API key is required").
Proof.
  intros Hk He1 He2. unfold GeminiEmbeddingFunction.
  by rewrite (or_else_falsy _ _ (or_else_falsy _ _ Hk He1) He2).
Qed.

(** A manager whose embedding function cannot be built is not built. *)
Lemma init_raises_without_embedding_function {b : Backend} (env : Env)
    (name : string) (dir : option string) (model : string)
    (cfg : option (gmap string string)) (e : Exception) (w : World b) :
  _create_embedding_function env model (default ∅ cfg) = inl e ->
  exists e' w', __init__ env name dir model cfg w = (inl e', w').
Proof.
  intros He. unfold __init__, mbind, M_bind, call, lift. rewrite He.
  destruct (PersistentClient b _ (store w)) as [[e'|[]] s']; eauto.
Qed.

(** C6. With no API key in the explicit configuration and none in the
    environment, the constructors of both remote embedding functions raise
    [ValueError] at once, and so does [_create_embedding_function]; the
    manager's constructor then returns no manager, so no embed call can be
    reached. *)
Theorem remote_provider_fails_fast_without_key (env : Env)
    (model_name : string) (cfg : option (gmap string string)) :
  truthy (default ∅ cfg !! "api_key") = false ->
  (truthy (getenv env "OPENAI_API_KEY") = false ->
     OpenAIEmbeddingFunction env model_name (default ∅ cfg !! "api_key")
     = inl (mkExc ValueError "OpenAI API key is required")
     /\ _create_embedding_function env "openai" (default ∅ cfg)
        = inl (mkExc ValueError "OpenAI API key is required")
     /\ forall (b : Backend) name dir (w : World b),
          exists e w', __init__ env name dir "openai" cfg w = (inl e, w'))
  /\ (truthy (getenv env "GEMINI_API_KEY") = false ->
      truthy (getenv env "GOOGLE_API_KEY") = false ->
     GeminiEmbeddingFunction env model_name (default ∅ cfg !! "api_key")
     = inl (mkExc ValueError "Gemini API key is required")
     /\ _create_embedding_function env "gemini" (default ∅ cfg)
        = inl (mkExc ValueError "Gemini API key is required")
     /\ forall (b : Backend) name dir (w : World b),
          exists e w', __init__ env name dir "gemini" cfg w = (inl e, w')).
Proof.
  intros Hk. split.
  - intros He.
    assert (_create_embedding_function env "openai" (default ∅ cfg)
            = inl (mkExc ValueError "OpenAI API key is required")) as Hc.
    { unfold _create_embedding_function. rewrite decide_True by done.
      by apply openai_requires_key. }
    split; [by apply openai_requires_key|]. split; [exact Hc|].
    intros b name dir w.
    by eapply init_raises_without_embedding_function.
  - intros He1 He2.
    assert (_create_embedding_function env "gemini" (default ∅ cfg)
            = inl (mkExc ValueError "Gemini API key is required")) as Hc.
    { unfold _create_embedding_function.
      rewrite decide_False, decide_True by done.
      by apply gemini_requires_key. }
    split; [by apply gemini_requires_key|]. split; [exact Hc|].
    intros b name dir w.
    by eapply init_raises_without_embedding_function.
Qed.

Lemma remote_provider_fails_fast_without_key_witness :
  OpenAIEmbeddingFunction Samples.env_plain "text-embedding-3-small" None
  = inl (mkExc ValueError "OpenAI API key is required")
  /\ GeminiEmbeddingFunction Samples.env_plain "models/text-embedding-004" None
     = inl (mkExc ValueError "Gemini API key is required").
Proof.
  pose proof (remote_provider_fails_fast_without_key Samples.env_plain
                "text-embedding-3-small" None eq_refl) as [Ho _].
  pose proof (remote_provider_fails_fast_without_key Samples.env_plain
                "models/text-embedding-004" None eq_refl) as [_ Hg].
  split.
  - apply Ho. reflexivity.
  - apply Hg; reflexivity.
Defined.

End Providers.

(** ** Error handling of the manager *)

Section ErrorHandling.
Context {b : Backend}.

Ltac run_manager H :=
  unfold try_except, mbind, M_bind, call, logger_error, throw, error_logged;
  simpl; rewrite ?H; try reflexivity.

Lemma add_documents_reraises (self : ChromaClient b) docs metas ids
    (w : World b) (e : Exception) (s : State b) :
  collection_add b (collection self) docs metas ids (store w) = (inl e, s) ->
  add_documents self docs metas ids w
  = (inl e,
     error_logged w s ("Error adding documents to ChromaDB: " +:+ exc_str e)).
Proof. intros H. unfold add_documents. run_manager H. Qed.

Lemma upsert_documents_reraises (self : ChromaClient b) docs metas ids
    (w : World b) (e : Exception) (s : State b) :
  collection_upsert b (collection self) docs metas ids (store w) = (inl e, s) ->
  upsert_documents self docs metas ids w
  = (inl e,
     error_logged w s ("Error upserting documents to ChromaDB: " +:+ exc_str e)).
Proof. intros H. unfold upsert_documents. run_manager H. Qed.

Lemma search_reraises (self : ChromaClient b) texts n wh whd
    (w : World b) (e : Exception) (s : State b) :
  collection_query b (collection self) texts n wh whd (store w) = (inl e, s) ->
  search self texts n wh whd w
  = (inl e,
     error_logged w s ("Error performing semantic search: " +:+ exc_str e)).
Proof. intros H. unfold search. run_manager H. Qed.

Lemma delete_documents_reraises (self : ChromaClient b) ids
    (w : World b) (e : Exception) (s : State b) :
  collection_delete b (collection self) ids (store w) = (inl e, s) ->
  delete_documents self ids w
  = (inl e,
     error_logged w s ("Error deleting documents from ChromaDB: " +:+ exc_str e)).
Proof. intros H. unfold delete_documents. run_manager H. Qed.

Lemma reset_collection_reraises_delete (self : ChromaClient b)
    (w : World b) (e : Exception) (s : State b) :
  delete_collection b (collection_name self) (store w) = (inl e, s) ->
  reset_collection self w
  = (inl e, error_logged w s ("Error resetting collection: " +:+ exc_str e)).
Proof. intros H. unfold reset_collection. run_manager H. Qed.

Lemma reset_collection_reraises_create (self : ChromaClient b)
    (w : World b) (e : Exception) (s1 s : State b) :
  delete_collection b (collection_name self) (store w) = (inr (), s1) ->
  create_collection b (collection_name self) (embedding_function self) s1
  = (inl e, s) ->
  reset_collection self w
  = (inl e, error_logged w s ("Error resetting collection: " +:+ exc_str e)).
Proof.
  intros H1 H2.
  unfold reset_collection, try_except, mbind, M_bind, call. simpl.
  rewrite H1. simpl. rewrite H2. reflexivity.
Qed.

Lemma get_collection_info_degrades (self : ChromaClient b)
    (w : World b) (e : Exception) (s : State b) :
  collection_count b (collection self) (store w) = (inl e, s) ->
  get_collection_info self w
  = (inr (mkInfo (collection_name self) 0 (embedding_model self)
            (persist_directory self) (Some (exc_str e))),
     error_logged w s ("Error getting collection info: " +:+ exc_str e)).
Proof. intros H. unfold get_collection_info. run_manager H. Qed.

Lemma document_exists_swallows (self : ChromaClient b) (doc_id : string)
    (w : World b) (e : Exception) (s : State b) :
  collection_get b (collection self) [doc_id] (store w) = (inl e, s) ->
  document_exists self doc_id w = (inr false, mkWorld s (log w)).
Proof. intros H. unfold document_exists. run_manager H. Qed.

(** C2, amended. When the backend call of an operation raises [e]:
    [add_documents], [upsert_documents], [search], [delete_documents] and
    [reset_collection] log the error under the operation's message and
    raise the same [e]; [get_collection_info] logs it and returns the
    degraded result, with count 0 and the error field set to [str(e)];
    [document_exists] returns [False], with nothing raised and nothing
    logged. *)
Theorem backend_errors_by_operation (self : ChromaClient b) (w : World b)
    (e : Exception) (s : State b) docs metas ids texts n wh whd doc_id :
  (collection_add b (collection self) docs metas ids (store w) = (inl e, s) ->
   add_documents self docs metas ids w
   = (inl e,
      error_logged w s ("Error adding documents to ChromaDB: " +:+ exc_str e)))
  /\ (collection_upsert b (collection self) docs metas ids (store w)
      = (inl e, s) ->
      upsert_documents self docs metas ids w
      = (inl e,
         error_logged w s
           ("Error upserting documents to ChromaDB: " +:+ exc_str e)))
  /\ (collection_query b (collection self) texts n wh whd (store w)
      = (inl e, s) ->
      search self texts n wh whd w
      = (inl e,
         error_logged w s ("Error performing semantic search: " +:+ exc_str e)))
  /\ (collection_delete b (collection self) ids (store w) = (inl e, s) ->
      delete_documents self ids w
      = (inl e,
         error_logged w s
           ("Error deleting documents from ChromaDB: " +:+ exc_str e)))
  /\ (delete_collection b (collection_name self) (store w) = (inl e, s) ->
      reset_collection self w
      = (inl e,
         error_logged w s ("Error resetting collection: " +:+ exc_str e)))
  /\ (forall s1,
      delete_collection b (collection_name self) (store w) = (inr (), s1) ->
      create_collection b (collection_name self) (embedding_function self) s1
      = (inl e, s) ->
      reset_collection self w
      = (inl e,
         error_logged w s ("Error resetting collection: " +:+ exc_str e)))
  /\ (collection_count b (collection self) (store w) = (inl e, s) ->
      get_collection_info self w
      = (inr (mkInfo (collection_name self) 0 (embedding_model self)
                (persist_directory self) (Some (exc_str e))),
         error_logged w s ("Error getting collection info: " +:+ exc_str e)))
  /\ (collection_get b (collection self) [doc_id] (store w) = (inl e, s) ->
      document_exists self doc_id w = (inr false, mkWorld s (log w))).
Proof.
  repeat split;
    eauto using add_documents_reraises, upsert_documents_reraises,
      search_reraises, delete_documents_reraises,
      reset_collection_reraises_delete, reset_collection_reraises_create,
      get_collection_info_degrades, document_exists_swallows.
Qed.

End ErrorHandling.

Section ErrorHandlingOutage.

(** The claim as it is written fails on [document_exists]: while the store
    is unreachable the call that reads the collection raises, and the
    operation returns [False], raising nothing and logging nothing. *)
Lemma document_exists_drops_backend_error :
  __init__ Samples.env_plain "zotero_library" (Some "/db") "default" None
    Samples.online
  = (inr Samples.outage_client, Samples.online)
  /\ collection_get Outage.backend (collection Samples.outage_client)
       ["ABCD1234"] (store Samples.offline)
     = (inl Outage.unreachable, store Samples.offline)
  /\ document_exists Samples.outage_client "ABCD1234" Samples.offline
     = (inr false, Samples.offline).
Proof. repeat split. Qed.

Lemma backend_errors_by_operation_witness :
  add_documents Samples.outage_client ["d"] [∅] ["ABCD1234"] Samples.offline
  = (inl Outage.unreachable,
     mkWorld (false : State Outage.backend)
       [(ERROR, "Error adding documents to ChromaDB: backend unreachable")])
  /\ get_collection_info Samples.outage_client Samples.offline
     = (inr (mkInfo "zotero_library" 0 "default" "/db"
               (Some "backend unreachable")),
        mkWorld (false : State Outage.backend)
          [(ERROR, "Error getting collection info: backend unreachable")])
  /\ document_exists Samples.outage_client "ABCD1234" Samples.offline
     = (inr false, Samples.offline).
Proof.
  pose proof (backend_errors_by_operation Samples.outage_client
                Samples.offline Outage.unreachable
                (false : State Outage.backend)
                ["d"] [∅] ["ABCD1234"] ["q"] 5 None None "ABCD1234")
    as (Hadd & _ & _ & _ & _ & _ & Hinfo & Hexists).
  split; [|split].
  - apply Hadd. reflexivity.
  - apply Hinfo. reflexivity.
  - apply Hexists. reflexivity.
Defined.

End ErrorHandlingOutage.

(** ** The manager over the in-memory store *)

Section MemStore.
Import Mem.

Implicit Types (m : gmap string Doc) (xs : list (string * (string * Metadata))).

(** A write leaves the documents outside its batch alone. *)
Lemma foldl_put_keep ef m xs (k : string) :
  k ∉ xs.*1 -> foldl (put ef) m xs !! k = m !! k.
Proof.
  revert m. induction xs as [|x xs IH]; intros m Hk; [done|].
  rewrite fmap_cons in Hk. apply not_elem_of_cons in Hk as [Hne Hk].
  simpl. rewrite IH by done. unfold put. by rewrite lookup_insert_ne.
Qed.

(** The result of a write depends on the earlier documents only outside its
    batch. *)
Lemma foldl_put_dep ef m m' xs :
  (forall k, k ∉ xs.*1 -> m !! k = m' !! k) ->
  foldl (put ef) m xs = foldl (put ef) m' xs.
Proof.
  revert m m'. induction xs as [|x xs IH]; intros m m' Hm; simpl.
  - apply map_eq. intros k. apply Hm. by intros ?%elem_of_nil.
  - apply IH. intros k Hk. unfold put.
    destruct (decide (x.1 = k)) as [->|Hne].
    + by rewrite !lookup_insert_eq.
    + rewrite !lookup_insert_ne by done. apply Hm.
      rewrite fmap_cons. apply not_elem_of_cons. split; [congruence | done].
Qed.

Lemma foldl_put_idem ef m xs :
  foldl (put ef) (foldl (put ef) m xs) xs = foldl (put ef) m xs.
Proof. apply foldl_put_dep. intros k Hk. by apply foldl_put_keep. Qed.

Lemma mem_upsert_twice (h : Handle) docs metas ids (s : MemState) :
  let once := mem_upsert h docs metas ids s in
  let twice := mem_upsert h docs metas ids once.2 in
  twice.1 = once.1 /\ collections twice.2 = collections once.2.
Proof.
  unfold mem_upsert.
  destruct (collections s !! h_name h) as [c|] eqn:Hc; simpl.
  - destruct (batch docs metas ids) as [xs|] eqn:Hxs; simpl.
    + rewrite lookup_insert_eq. simpl.
      rewrite insert_insert_eq, foldl_put_idem. done.
    + by rewrite Hc.
  - by rewrite Hc.
Qed.

Lemma upsert_documents_store {b : Backend} (self : ChromaClient b)
    docs metas ids (w : World b) :
  (upsert_documents self docs metas ids w).1
  = (collection_upsert b (collection self) docs metas ids (store w)).1
  /\ store (upsert_documents self docs metas ids w).2
     = (collection_upsert b (collection self) docs metas ids (store w)).2.
Proof.
  unfold upsert_documents, try_except, mbind, M_bind, call. simpl.
  by destruct (collection_upsert b _ _ _ _ _) as [[e|[]] s].
Qed.

Lemma mem_count_collections (h : Handle) (s s' : MemState) :
  collections s = collections s' -> (mem_count h s).1 = (mem_count h s').1.
Proof. unfold mem_count. intros <-. by destruct (collections s !! _). Qed.

Lemma mem_get_collections (h : Handle) ids (s s' : MemState) :
  collections s = collections s' -> (mem_get h ids s).1 = (mem_get h ids s').1.
Proof. unfold mem_get. intros <-. by destruct (collections s !! _). Qed.

(** C7. Over the in-memory store, [upsert_documents] is idempotent: a
    second call with the same arguments returns as the first one did and
    leaves every collection as the first call left it, so the document
    count and the documents stored under any ids are the same. *)
Theorem upsert_documents_idempotent (rank : Ranking)
    (self : ChromaClient (backend rank)) docs metas ids
    (w : World (backend rank)) :
  let once := upsert_documents self docs metas ids w in
  let twice := upsert_documents self docs metas ids once.2 in
  twice.1 = once.1
  /\ collections (store twice.2) = collections (store once.2)
  /\ (mem_count (collection self) (store twice.2)).1
     = (mem_count (collection self) (store once.2)).1
  /\ forall ids',
       (mem_get (collection self) ids' (store twice.2)).1
       = (mem_get (collection self) ids' (store once.2)).1.
Proof.
  intros once twice.
  destruct (upsert_documents_store self docs metas ids w) as [Hr1 Hs1].
  destruct (upsert_documents_store self docs metas ids once.2) as [Hr2 Hs2].
  destruct (mem_upsert_twice (collection self) docs metas ids (store w))
    as [Hr Hc].
  fold once in Hr1, Hs1. fold twice in Hr2, Hs2. simpl in *.
  assert (collections (store twice.2) = collections (store once.2)) as Heq.
  { rewrite Hs2, Hs1. exact Hc. }
  split; [by rewrite Hr2, Hr1, Hs1|]. split; [exact Heq|].
  split; [by apply mem_count_collections|].
  intros ids'. by apply mem_get_collections.
Qed.

End MemStore.

(** ** The provider a manager embeds with *)

Section ProviderBinding.
Import Mem.

(** What a successful construction did, over any backend: the embedding
    function was built from the constructor's own arguments, and the
    collection was obtained from the backend with that function. *)
Lemma init_success {b : Backend} (env : Env) (name : string)
    (dir : option string) (model : string)
    (cfg : option (gmap string string)) (w w' : World b)
    (self : ChromaClient b) :
  __init__ env name dir model cfg w = (inr self, w') ->
  _create_embedding_function env model (default ∅ cfg)
  = inr (embedding_function self)
  /\ exists s1,
       get_or_create_collection b name (embedding_function self) s1
       = (inr (collection self), store w').
Proof.
  unfold __init__, mbind, M_bind, mret, M_ret, call, lift. simpl.
  destruct (PersistentClient b _ (store w)) as [[e|[]] s1]; [done|].
  destruct (_create_embedding_function env model (default ∅ cfg))
    as [e|ef]; [done|]. simpl.
  destruct (get_or_create_collection b name ef s1) as [[e|c] s2] eqn:Hc;
    [done|].
  intros [= <- <-]. simpl. eauto.
Qed.








End ProviderBinding.

(** * Further properties of the code *)

(** ** Locating and opening the database *)

Section ReaderProperties.
Context (pf : Platform).





(** X3. An explicit, non-empty [db_path] is taken as it is: the constructor
    does not look at the file system and cannot fail, even when nothing
    exists at that path; the failure then comes from the first query, when
    [_get_connection] opens the file, and leaves the reader without a
    connection. *)
Theorem explicit_db_path_unchecked (p : string) (e : Exception)
    (events : list (DbEvent pf)) :
  p <> EmptyString ->
  sqlite3_connect pf ("file:" +:+ p +:+ "?mode=ro") = inl e ->
  reader_init pf (Some p) = inr (mkReader pf p None)
  /\ _get_connection pf (mkReader pf p None) events
     = (inl e, mkReader pf p None, events).
Proof.
  intros Hp He. split.
  - unfold reader_init. simpl. by destruct p.
  - unfold _get_connection. simpl. by rewrite He.
Qed.


(** X5. [close] releases the connection and is idempotent; leaving a
    [with] block closes the reader on every path: whatever the body
    returned or raised, the reader has no connection afterwards, a
    connection the body left open is closed last, and the body's result or
    exception comes through unchanged. *)
Theorem close_releases_on_every_path {A} (self : LocalZoteroReader pf)
    (events : list (DbEvent pf))
    (body : LocalZoteroReader pf -> list (DbEvent pf) ->
            (Exception + A) * LocalZoteroReader pf * list (DbEvent pf)) :
  _connection pf (close pf self events).1 = None
  /\ close pf (close pf self events).1 (close pf self events).2
     = close pf self events
  /\ (with_reader pf self body events).1.1 = (body self events).1.1
  /\ _connection pf (with_reader pf self body events).1.2 = None
  /\ (forall c, _connection pf (body self events).1.2 = Some c ->
        (with_reader pf self body events).2
        = (body self events).2 ++ [Closed pf c]).
Proof.
  assert (Hclose : forall s ev, _connection pf (close pf s ev).1 = None).
  { intros s ev. unfold close. by destruct (_connection pf s) eqn:Hs. }
  split; [apply Hclose|]. split.
  { unfold close. destruct (_connection pf self) eqn:Hs; simpl; [done|].
    by rewrite Hs. }
  unfold with_reader. destruct (body self events) as [[r self'] events'].
  simpl. pose proof (Hclose self' events') as Hc.
  destruct (close pf self' events') as [self'' events''] eqn:Hcl. simpl in *.
  split; [done|]. split; [done|].
  intros c Hsome. unfold close in Hcl. rewrite Hsome in Hcl.
  by injection Hcl as _ <-.
Qed.

End ReaderProperties.

Section ReaderWitnesses.



Lemma explicit_db_path_unchecked_witness :
  reader_init Samples.linux (Some "/nowhere/zotero.sqlite")
  = inr (mkReader Samples.linux "/nowhere/zotero.sqlite" None)
  /\ _get_connection Samples.linux
       (mkReader Samples.linux "/nowhere/zotero.sqlite" None) []
     = (inl (mkExc RuntimeError "unable to open database file"),
        mkReader Samples.linux "/nowhere/zotero.sqlite" None, []).
Proof.
  apply (explicit_db_path_unchecked Samples.linux); [discriminate|].
  reflexivity.
Defined.


End ReaderWitnesses.

(** ** What the extraction returns *)

Section ExtractionCoverage.

Lemma left_join_inhabited {B} (matches : list B) :
  exists x, x ∈ left_join matches.
Proof.
  destruct matches as [|y l]; simpl.
  - exists None. apply list_elem_of_here.
  - exists (Some y). apply list_elem_of_here.
Qed.

(** The left joins never drop a row of [items]. *)
Lemma from_clause_complete (db : Database) (i : ItemsRow) :
  i ∈ items db -> exists j, j ∈ from_clause db /\ j_i j = i.
Proof.
  intros Hi. unfold from_clause.
  destruct (left_join_inhabited
              (filter (fun d => d_itemID d = i_itemID i /\ d_fieldID d = 1)
                 (itemData db))) as [td Htd].
  destruct (left_join_inhabited
              match td with
              | Some d => filter (fun v => v_valueID v = d_valueID d)
                            (itemDataValues db)
              | None => []
              end) as [tv Htv].
  destruct (left_join_inhabited
              (filter (fun d => d_itemID d = i_itemID i /\ d_fieldID d = 2)
                 (itemData db))) as [ad Had].
  destruct (left_join_inhabited
              match ad with
              | Some d => filter (fun v => v_valueID v = d_valueID d)
                            (itemDataValues db)
              | None => []
              end) as [av Hav].
  destruct (left_join_inhabited
              (filter (fun d => d_itemID d = i_itemID i /\ d_fieldID d = 16)
                 (itemData db))) as [ed Hed].
  destruct (left_join_inhabited
              match ed with
              | Some d => filter (fun v => v_valueID v = d_valueID d)
                            (itemDataValues db)
              | None => []
              end) as [ev Hev].
  destruct (left_join_inhabited
              (filter (fun n => n_parentItemID n = Some (i_itemID i)
                                \/ n_itemID n = i_itemID i) (itemNotes db)))
    as [n Hn].
  destruct (left_join_inhabited
              (filter (fun ic => ic_itemID ic = i_itemID i) (itemCreators db)))
    as [ic Hic].
  destruct (left_join_inhabited
              match ic with
              | Some r => filter (fun c => c_creatorID c = ic_creatorID r)
                            (creators_table db)
              | None => []
              end) as [c Hc].
  exists (mkJoined i tv av ev n c). split; [|done].
  apply list_elem_of_bind. exists i. split; [|done].
  apply list_elem_of_bind. exists td. split; [|done].
  apply list_elem_of_bind. exists tv. split; [|done].
  apply list_elem_of_bind. exists ad. split; [|done].
  apply list_elem_of_bind. exists av. split; [|done].
  apply list_elem_of_bind. exists ed. split; [|done].
  apply list_elem_of_bind. exists ev. split; [|done].
  apply list_elem_of_bind. exists n. split; [|done].
  apply list_elem_of_bind. exists ic. split; [|done].
  apply list_elem_of_bind. exists c. split; [|done].
  apply list_elem_of_here.
Qed.

(** Every joined row is a row of [items] with its matches. *)
Lemma from_clause_sound (db : Database) (j : Joined) :
  j ∈ from_clause db -> j_i j ∈ items db.
Proof.
  unfold from_clause.
  intros (i & Hj & Hi)%list_elem_of_bind.
  repeat (apply list_elem_of_bind in Hj as (? & Hj & _)).
  apply list_elem_of_singleton in Hj as ->. done.
Qed.

Lemma add_to_group_new (k : GroupKey) (r : Joined)
    (gs : list (GroupKey * list Joined)) :
  exists g, g ∈ add_to_group k r gs /\ g.1 = k.
Proof.
  induction gs as [|[k' rs] gs IH]; simpl.
  - exists (k, [r]). split; [apply list_elem_of_here | done].
  - case_decide as Hk.
    + exists (k', rs ++ [r]). split; [apply list_elem_of_here | done].
    + destruct IH as (g & Hg & Hgk). exists g.
      split; [by apply list_elem_of_further | done].
Qed.

Lemma add_to_group_old (k : GroupKey) (r : Joined)
    (gs : list (GroupKey * list Joined)) (g : GroupKey * list Joined) :
  g ∈ gs -> exists g', g' ∈ add_to_group k r gs /\ g'.1 = g.1.
Proof.
  induction gs as [|[k' rs] gs IH]; simpl; [by intros ?%elem_of_nil|].
  intros [->|Hg]%elem_of_cons.
  - case_decide.
    + exists (k', rs ++ [r]). split; [apply list_elem_of_here | done].
    + exists (k', rs). split; [apply list_elem_of_here | done].
  - case_decide.
    + exists g. split; [by apply list_elem_of_further | done].
    + destruct (IH Hg) as (g' & Hg' & Hk'). exists g'.
      split; [by apply list_elem_of_further | done].
Qed.

(** Every row falls in a group with its grouping columns. *)
Lemma group_by_complete (rows : list Joined) (r : Joined) :
  r ∈ rows -> exists g, g ∈ group_by rows /\ g.1 = group_key r.
Proof.
  unfold group_by.
  induction rows as [|r' rows IH] using rev_ind; [by intros ?%elem_of_nil|].
  rewrite foldl_app. simpl. intros [Hr|Hr]%elem_of_app.
  - destruct (IH Hr) as (g & Hg & Hk).
    destruct (add_to_group_old (group_key r') r' _ g Hg) as (g' & Hg' & Hk').
    exists g'. split; [done | congruence].
  - apply list_elem_of_singleton in Hr as ->. apply add_to_group_new.
Qed.

Lemma unlimited_records (db : Database) (it : ZoteroItem) :
  it ∈ get_items_with_text db None <->
  exists g, g ∈ group_by (where_clause (from_clause db))
            /\ it = item_of_row (select_clause g).
Proof.
  unfold get_items_with_text. rewrite run_query_unlimited.
  rewrite list_elem_of_fmap. split.
  - intros (row & -> & Hrow). rewrite order_by_desc_perm in Hrow.
    apply list_elem_of_fmap in Hrow as (g & -> & Hg). by exists g.
  - intros (g & Hg & ->). exists (select_clause g). split; [done|].
    rewrite order_by_desc_perm. by apply list_elem_of_fmap_2.
Qed.

Lemma limited_records (db : Database) (limit : option Z) (it : ZoteroItem) :
  it ∈ get_items_with_text db limit -> it ∈ get_items_with_text db None.
Proof.
  unfold get_items_with_text. destruct (run_query_limit db limit) as [n ->].
  intros (row & -> & Hrow)%list_elem_of_fmap.
  apply elem_of_take in Hrow as (i & Hrow & _).
  apply list_elem_of_fmap_2. by eapply list_elem_of_lookup_2.
Qed.

(** With no limit, every non-attachment row of [items] has a record. *)
Lemma extraction_complete (db : Database) (i : ItemsRow) :
  i ∈ items db -> i_itemTypeID i <> ATTACHMENT ->
  exists it, it ∈ get_items_with_text db None /\ of_items_row it i.
Proof.
  intros Hi Htype.
  destruct (from_clause_complete db i Hi) as (j & Hj & <-).
  assert (j ∈ where_clause (from_clause db)) as Hw.
  { by apply list_elem_of_filter. }
  destruct (group_by_complete _ j Hw) as (g & Hg & Hk).
  exists (item_of_row (select_clause g)).
  split; [apply unlimited_records; by exists g|].
  unfold of_items_row. simpl. rewrite Hk. done.
Qed.

(** X6. The extraction neither invents nor loses items. Every record
    returned, under any limit, carries the id, key, type and dates of a
    non-attachment row of [items], and no full text; and with no limit
    every non-attachment row of [items] has a record, whatever the other
    tables hold. *)
Theorem extraction_sound_and_complete (db : Database) :
  (forall limit it, it ∈ get_items_with_text db limit ->
     fulltext it = None
     /\ exists i, i ∈ items db /\ i_itemTypeID i <> ATTACHMENT
                  /\ of_items_row it i)
  /\ (forall i, i ∈ items db -> i_itemTypeID i <> ATTACHMENT ->
        exists it, it ∈ get_items_with_text db None /\ of_items_row it i).
Proof.
  split.
  - intros limit it Hit%limited_records.
    apply unlimited_records in Hit as (g & Hg & ->).
    split; [done|].
    apply group_by_key in Hg as (r & Hr & Hk).
    apply list_elem_of_filter in Hr as [Htype Hr].
    exists (j_i r). split; [by apply from_clause_sound|]. split; [done|].
    unfold of_items_row. simpl. rewrite Hk. done.
  - intros i Hi Htype. by apply extraction_complete.
Qed.

(** X7. When item ids are unique, as a primary key is, [get_item_count] is
    at most the number of records of the unlimited extraction: counting
    never promises more items than the extraction delivers. *)
Theorem item_count_le_records (db : Database) :
  NoDup (i_itemID <$> items db) ->
  get_item_count db <= Z.of_nat (length (get_items_with_text db None)).
Proof.
  intros Hnd. unfold get_item_count. apply inj_le.
  set (kept := filter (fun i => i_itemTypeID i <> ATTACHMENT) (items db)).
  rewrite <- (length_fmap i_itemID kept),
    <- (length_fmap item_id (get_items_with_text db None)).
  apply submseteq_length, NoDup_submseteq.
  - apply (NoDup_fmap_2_strong i_itemID).
    + intros x y Hx%list_elem_of_filter Hy%list_elem_of_filter Hxy.
      destruct Hx as [_ Hx], Hy as [_ Hy].
      apply list_elem_of_lookup in Hx as [n Hx].
      apply list_elem_of_lookup in Hy as [m Hy].
      assert (n = m) as ->.
      { eapply NoDup_lookup; [exact Hnd|..];
          rewrite list_lookup_fmap; [by rewrite Hx | by rewrite Hy, Hxy]. }
      congruence.
    + apply NoDup_filter. eapply NoDup_fmap_1. exact Hnd.
  - intros x (i & -> & Hi)%list_elem_of_fmap.
    apply list_elem_of_filter in Hi as [Htype Hi].
    destruct (extraction_complete db i Hi Htype) as (it & Hit & Hid & _).
    apply list_elem_of_fmap. by exists it.
Qed.

Lemma item_count_le_records_witness :
  get_item_count Samples.library
  <= Z.of_nat (length (get_items_with_text Samples.library None)).
Proof.
  apply item_count_le_records. by apply (bool_decide_unpack _).
Defined.

End ExtractionCoverage.

(** ** Lookup by key and the naive search *)

Section Lookup.

Lemma date_le_refl (a : option string) : date_le a a = true.
Proof.
  destruct a as [x|]; simpl; [|done].
  destruct (String.leb_total x x); done.
Qed.

(** The unlimited extraction holds no attachment and is ordered, newest
    first. *)
Lemma unlimited_typed_and_sorted (db : Database) :
  Forall (fun it => item_type_id it <> ATTACHMENT)
    (get_items_with_text db None)
  /\ StronglySorted newer_first (get_items_with_text db None).
Proof.
  unfold get_items_with_text. split.
  - apply Forall_forall. intros it (row & -> & Hrow)%list_elem_of_fmap.
    by apply run_query_not_attachment in Hrow.
  - apply StronglySorted_fmap with (R1 := row_newer_first); [done|].
    rewrite run_query_unlimited. apply order_by_desc_sorted.
Qed.

Lemma find_key_split (k : string) (l : list ZoteroItem) (it : ZoteroItem) :
  find_key k l = Some it ->
  exists pre post, l = pre ++ it :: post /\ key it = k
                   /\ Forall (fun x => key x <> k) pre.
Proof.
  induction l as [|x l IH]; simpl; [done|].
  case_decide as Hx.
  - intros [= ->]. by exists [], l.
  - intros (pre & post & -> & Hk & Hpre)%IH.
    exists (x :: pre), post. split; [done|]. split; [done|].
    by constructor.
Qed.

Lemma find_key_None (k : string) (l : list ZoteroItem) :
  find_key k l = None <-> Forall (fun x => key x <> k) l.
Proof.
  induction l as [|x l IH]; simpl; [split; [constructor | done]|].
  case_decide as Hx.
  - split; [done|]. intros [Hne _]%Forall_cons. done.
  - rewrite IH. split; [by constructor | by intros [_ ?]%Forall_cons].
Qed.

(** X8. [get_item_by_key] returns a record of the extraction with the key
    asked for, never an attachment; when several records have the key it
    is one modified no earlier than all the others; it returns [None]
    exactly when no record of the extraction has the key. *)
Theorem get_item_by_key_spec (db : Database) (k : string) :
  (forall it, get_item_by_key db k = Some it ->
     key it = k /\ it ∈ get_items_with_text db None
     /\ item_type_id it <> ATTACHMENT
     /\ forall it', it' ∈ get_items_with_text db None -> key it' = k ->
          newer_first it it')
  /\ (get_item_by_key db k = None <->
      forall it, it ∈ get_items_with_text db None -> key it <> k).
Proof.
  unfold get_item_by_key.
  destruct (unlimited_typed_and_sorted db) as [Htypes Hsorted].
  split.
  - intros it (pre & post & Heq & Hk & Hpre)%find_key_split.
    rewrite Heq in Htypes, Hsorted |- *.
    split; [done|].
    split; [apply elem_of_app; right; apply list_elem_of_here|].
    split.
    { apply Forall_app in Htypes as [_ Hit]. by apply Forall_cons in Hit as [? _]. }
    intros it' Hin' Hk'.
    apply StronglySorted_app_1_r, StronglySorted_cons in Hsorted
      as [Hlater _].
    apply elem_of_app in Hin' as [Hin'|Hin'].
    + rewrite Forall_forall in Hpre. by destruct (Hpre it' Hin').
    + apply elem_of_cons in Hin' as [->|Hin'].
      * apply date_le_refl.
      * rewrite Forall_forall in Hlater. by apply Hlater.
  - rewrite find_key_None, Forall_forall. done.
Qed.

Lemma get_item_by_key_spec_witness :
  exists it, get_item_by_key Samples.library "NOTE0001" = Some it
             /\ key it = "NOTE0001" /\ item_type_id it <> ATTACHMENT.
Proof.
  pose proof (proj1 (get_item_by_key_spec Samples.library "NOTE0001")) as H.
  destruct (get_item_by_key Samples.library "NOTE0001") as [it|] eqn:E;
    [|vm_compute in E; discriminate].
  exists it. destruct (H it eq_refl) as (Hk & _ & Ht & _). done.
Defined.





End Lookup.

(** ** Choosing and building the embedding function *)

Section ProviderSelection.

Lemma truthy_Some (x : option string) :
  truthy x = true -> exists s, x = Some s /\ s <> EmptyString.
Proof. destruct x as [[|c s]|]; simpl; [done| |done]. intros _. by eexists. Qed.

(** X10. The provider is selected by exact comparison of [embedding_model]
    with ["openai"] and ["gemini"]: any other name, a capitalised or
    misspelt one included, silently gives the default provider, whatever
    the configuration and the environment hold, and cannot fail. An OpenAI
    or Gemini function is only ever built for its exact name. *)
Theorem provider_selected_by_exact_name (env : Env) (model : string)
    (cfg : gmap string string) :
  (model <> "openai" -> model <> "gemini" ->
   _create_embedding_function env model cfg = inr DefaultEmbedding)
  /\ (forall m k, _create_embedding_function env model cfg
                  = inr (OpenAIEmbedding m k) -> model = "openai")
  /\ (forall m k, _create_embedding_function env model cfg
                  = inr (GeminiEmbedding m k) -> model = "gemini")
  /\ (forall e, _create_embedding_function env model cfg = inl e ->
        model = "openai" \/ model = "gemini").
Proof.
  unfold _create_embedding_function, OpenAIEmbeddingFunction,
    GeminiEmbeddingFunction.
  repeat split.
  - intros H1 H2. by rewrite !decide_False.
  - intros m k. repeat case_decide; [done|..]; repeat case_match; done.
  - intros m k. repeat case_decide; [|done|]; repeat case_match; done.
  - intros e. repeat case_decide; auto. done.
Qed.

Lemma provider_selected_by_exact_name_witness :
  _create_embedding_function Samples.env_key "OpenAI" ∅ = inr DefaultEmbedding.
Proof.
  apply (provider_selected_by_exact_name Samples.env_key "OpenAI" ∅);
    discriminate.
Defined.

(** X11. A remote embedding function that was built carries a non-empty
    key: the explicit [api_key] when it is non-empty, otherwise the key of
    the environment ([OPENAI_API_KEY]; for Gemini [GEMINI_API_KEY], then
    [GOOGLE_API_KEY]); an empty explicit key counts as none. The missing
    package is reported, as [ImportError], only when a key was found. *)
Theorem remote_key_precedence (env : Env) (model_name : string)
    (api_key : option string) :
  (forall ef, OpenAIEmbeddingFunction env model_name api_key = inr ef ->
     exists key, ef = OpenAIEmbedding model_name key /\ key <> EmptyString
       /\ (truthy api_key = true -> api_key = Some key)
       /\ (truthy api_key = false ->
           getenv env "OPENAI_API_KEY" = Some key))
  /\ (forall ef, GeminiEmbeddingFunction env model_name api_key = inr ef ->
     exists key, ef = GeminiEmbedding model_name key /\ key <> EmptyString
       /\ (truthy api_key = true -> api_key = Some key)
       /\ (truthy api_key = false ->
           truthy (getenv env "GEMINI_API_KEY") = true ->
           getenv env "GEMINI_API_KEY" = Some key)
       /\ (truthy api_key = false ->
           truthy (getenv env "GEMINI_API_KEY") = false ->
           getenv env "GOOGLE_API_KEY" = Some key))
  /\ (forall e, OpenAIEmbeddingFunction env model_name api_key = inl e ->
        exc_class e = ImportError ->
        openai_installed env = false
        /\ truthy (or_else api_key (getenv env "OPENAI_API_KEY")) = true)
  /\ (forall e, GeminiEmbeddingFunction env model_name api_key = inl e ->
        exc_class e = ImportError ->
        genai_installed env = false
        /\ truthy (or_else (or_else api_key (getenv env "GEMINI_API_KEY"))
                     (getenv env "GOOGLE_API_KEY")) = true).
Proof.
  unfold OpenAIEmbeddingFunction, GeminiEmbeddingFunction.
  split; [|split; [|split]].
  - intros ef.
    destruct (truthy (or_else api_key _)) eqn:Hk; simpl; [|done].
    destruct (openai_installed env); [|done]. intros [= <-].
    destruct (truthy_Some _ Hk) as (key & Hkey & Hne).
    exists key. rewrite Hkey. simpl. split; [done|]. split; [done|].
    unfold or_else in Hkey. split; intros Ht; by rewrite Ht in Hkey.
  - intros ef.
    destruct (truthy (or_else (or_else api_key _) _)) eqn:Hk; simpl; [|done].
    destruct (genai_installed env); [|done]. intros [= <-].
    destruct (truthy_Some _ Hk) as (key & Hkey & Hne).
    exists key. rewrite Hkey. simpl. split; [done|]. split; [done|].
    unfold or_else in Hkey.
    destruct (truthy api_key) eqn:Ha; simpl in Hkey; rewrite ?Ha in Hkey.
    + repeat split; intros; congruence.
    + destruct (truthy (getenv env "GEMINI_API_KEY")) eqn:Hg;
        repeat split; intros; congruence.
  - intros e.
    destruct (truthy (or_else api_key _)); simpl; [|by intros [= <-]].
    destruct (openai_installed env); [done|]. done.
  - intros e.
    destruct (truthy (or_else (or_else api_key _) _)); simpl;
      [|by intros [= <-]].
    destruct (genai_installed env); [done|]. done.
Qed.

Lemma remote_key_precedence_witness :
  exists key,
    OpenAIEmbeddingFunction Samples.env_key "m" (Some "")
    = inr (OpenAIEmbedding "m" key)
    /\ key = "sk-test".
Proof.
  destruct (remote_key_precedence Samples.env_key "m" (Some "")) as [H _].
  destruct (H (OpenAIEmbedding "m" "sk-test") eq_refl)
    as (key & Hef & _ & _ & Henv).
  exists key. specialize (Henv eq_refl). vm_compute in Henv.
  injection Henv as <-. done.
Defined.

End ProviderSelection.

(** ** The calls of the remote embedding functions *)

Section RemoteCalls.
Context {Vector : Type}.
Context (embed_content : list string -> string -> string -> Exception + list Vector).
Context (embeddings_create : string -> list string -> Exception + list Vector).

Lemma gemini_loop_ok (model : string) (input : list string)
    (acc : list Vector) (sent sent' : list string) (vs : list Vector) :
  gemini_loop embed_content model input acc sent = (inr vs, sent') ->
  sent' = sent ++ input
  /\ exists out, vs = acc ++ out /\ length out = length input
     /\ forall i text, input !! i = Some text ->
          exists v rest,
            embed_content (sent ++ take i input) model text = inr (v :: rest)
            /\ out !! i = Some v.
Proof.
  revert acc sent. induction input as [|text input IH]; intros acc sent; simpl.
  - intros [= <- <-]. split; [by rewrite app_nil_r|].
    exists []. by rewrite app_nil_r.
  - destruct (embed_content sent model text) as [e|[|v rest]] eqn:Hr;
      [done..|].
    intros (-> & out & -> & Hlen & Hout)%IH.
    split; [by rewrite <- app_assoc|].
    exists (v :: out). split; [by rewrite <- app_assoc|].
    split; [simpl; by rewrite Hlen|].
    intros [|i] t Ht; simpl in *.
    + injection Ht as <-. rewrite app_nil_r. eauto.
    + destruct (Hout i t Ht) as (v' & rest' & Hresp & Hv).
      rewrite <- app_assoc in Hresp. eauto.
Qed.

Lemma gemini_loop_err (model : string) (input : list string)
    (acc : list Vector) (sent sent' : list string) (e : Exception) :
  gemini_loop embed_content model input acc sent = (inl e, sent') ->
  exists k, (k < length input)%nat /\ sent' = sent ++ take (S k) input.
Proof.
  revert acc sent. induction input as [|text input IH]; intros acc sent; simpl;
    [done|].
  destruct (embed_content sent model text) as [e'|[|v rest]] eqn:Hr.
  - intros [= _ <-]. exists 0%nat. split; [lia|]. by rewrite take_0.
  - intros [= _ <-]. exists 0%nat. split; [lia|]. by rewrite take_0.
  - intros (k & Hk & ->)%IH. exists (S k). split; [lia|].
    by rewrite <- app_assoc.
Qed.

(** X12. The Gemini embedding function sends one request per input text,
    in order. When it returns, it returns exactly one vector per text, the
    [i]-th being the first embedding of the response to the [i]-th text.
    When a request fails or answers with no embedding, the exception comes
    out, the texts after the failing one are never sent, and no vectors
    are returned. The OpenAI function sends one request with all the
    texts. *)
Theorem gemini_one_request_per_text (model : string) (input : list string)
    (sent : list string) (history : list (list string)) :
  (forall vs sent',
     Gemini__call__ embed_content model input sent = (inr vs, sent') ->
     sent' = sent ++ input /\ length vs = length input
     /\ forall i text, input !! i = Some text ->
          exists v rest,
            embed_content (sent ++ take i input) model text = inr (v :: rest)
            /\ vs !! i = Some v)
  /\ (forall e sent',
        Gemini__call__ embed_content model input sent = (inl e, sent') ->
        exists k, (k < length input)%nat /\ sent' = sent ++ take (S k) input)
  /\ (OpenAI__call__ embeddings_create model input history).2
     = history ++ [input].
Proof.
  unfold Gemini__call__. split; [|split; [|done]].
  - intros vs sent' (-> & out & -> & Hlen & Hout)%gemini_loop_ok. done.
  - intros e sent'. apply gemini_loop_err.
Qed.

End RemoteCalls.

Section RemoteCallsWitness.

Lemma gemini_one_request_per_text_witness :
  Gemini__call__ Samples.two_then_fail "m" ["a"; "b"] [] = (inr [0; 1]%nat, ["a"; "b"])
  /\ exists k, (k < 4)%nat
       /\ (Gemini__call__ Samples.two_then_fail "m" ["a"; "b"; "c"; "d"] []).2
          = take (S k) ["a"; "b"; "c"; "d"].
Proof.
  split; [reflexivity|].
  destruct (gemini_one_request_per_text Samples.two_then_fail
              (fun _ _ => inr []) "m" ["a"; "b"; "c"; "d"] [] [])
    as (_ & Herr & _).
  destruct (Herr (mkExc RuntimeError "quota exceeded") ["a"; "b"; "c"]
              eq_refl) as (k & Hk & Hsent).
  exists k. split; [exact Hk|]. exact Hsent.
Defined.

End RemoteCallsWitness.

(** ** More on the manager's operations *)

Section ManagerOperations.
Context {b : Backend}.

(** The directory [__init__] opens the store at. *)
Lemma init_fields (env : Env) (name : string) (dir : option string)
    (model : string) (cfg : option (gmap string string)) (w w' : World b)
    (self : ChromaClient b) :
  __init__ env name dir model cfg w = (inr self, w') ->
  collection_name self = name /\ embedding_model self = model
  /\ embedding_config self = default ∅ cfg
  /\ persist_directory self
     = match dir with
       | Some d => d
       | None => home env +:+ "/.config/zotero-mcp" +:+ "/chroma_db"
       end
  /\ log w' = log w.
Proof.
  unfold __init__, mbind, M_bind, mret, M_ret, call, lift. simpl.
  destruct (PersistentClient b _ (store w)) as [[e|[]] s1]; [done|].
  destruct (_create_embedding_function env model (default ∅ cfg))
    as [e|ef]; [done|]. simpl.
  destruct (get_or_create_collection b name ef s1) as [[e|c] s2]; [done|].
  by intros [= <- <-].
Qed.

(** X13. A construction that fails on the embedding function has opened
    the store and touched nothing else: [get_or_create_collection] is never
    called, so no collection is created, and nothing is logged. An error of
    the store itself comes first: it is raised whatever the credentials. *)
Theorem init_failure_creates_no_collection (env : Env) (name : string)
    (dir : option string) (model : string)
    (cfg : option (gmap string string)) (w : World b) (e : Exception) :
  _create_embedding_function env model (default ∅ cfg) = inl e ->
  let path := match dir with
              | Some d => d
              | None => home env +:+ "/.config/zotero-mcp" +:+ "/chroma_db"
              end in
  let opened := PersistentClient b path (store w) in
  __init__ env name dir model cfg w
  = (inl (match opened.1 with inl e' => e' | inr _ => e end),
     mkWorld opened.2 (log w)).
Proof.
  intros He path opened. subst opened path.
  unfold __init__, mbind, M_bind, call, lift. simpl. rewrite He.
  by destruct (PersistentClient b _ (store w)) as [[e'|[]] s1].
Qed.

(** X14. [search] reads the ids of the first query in the backend's answer,
    after the answer has come back: an answer with no id list at all (as
    for no query text) makes it log the error and raise [IndexError];
    otherwise it returns the backend's answer unchanged and logs the
    number of ids found for the first query text only. *)
Theorem search_reads_first_id_list (self : ChromaClient b) texts n wh whd
    (w : World b) (r : QueryResult b) (s : State b) :
  collection_query b (collection self) texts n wh whd (store w) = (inr r, s) ->
  (query_ids b r = [] ->
   search self texts n wh whd w
   = (inl (mkExc IndexError "list index out of range"),
      error_logged w s
        "Error performing semantic search: list index out of range"))
  /\ (forall first rest, query_ids b r = first :: rest ->
        search self texts n wh whd w
        = (inr r,
           mkWorld s
             (log w ++ [(INFO, "Semantic search returned " +:+ fmt_len first
                                 +:+ " results")]))).
Proof.
  intros Hq.
  unfold search, try_except, mbind, M_bind, mret, M_ret, call, index0,
    logger_info, logger_error, throw, error_logged. simpl.
  rewrite Hq. simpl. split.
  - intros ->. reflexivity.
  - intros first rest ->. reflexivity.
Qed.

(** X15. The two observers never raise, over any backend.
    [get_collection_info] returns the backend's count with no error field
    and logs nothing, or a count of 0 with the error field set;
    [document_exists] answers whether the backend returned an id, [False]
    if the backend raised, and never writes to the log. *)
Theorem observers_never_raise (self : ChromaClient b) (doc_id : string)
    (w : World b) :
  (exists info w', get_collection_info self w = (inr info, w')
     /\ info_name info = collection_name self
     /\ ((info_error info = None /\ log w' = log w
          /\ (collection_count b (collection self) (store w)).1
             = inr (info_count info))
         \/ (info_count info = 0 /\ exists e,
               (collection_count b (collection self) (store w)).1 = inl e
               /\ info_error info = Some (exc_str e))))
  /\ (exists found w', document_exists self doc_id w = (inr found, w')
        /\ log w' = log w
        /\ (found = true ->
            exists r, (collection_get b (collection self) [doc_id] (store w)).1
                      = inr r /\ get_ids b r <> [])).
Proof.
  split.
  - unfold get_collection_info, try_except, mbind, M_bind, mret, M_ret, call,
      logger_error. simpl.
    destruct (collection_count b (collection self) (store w)) as [[e|n] s];
      simpl; do 2 eexists; (split; [reflexivity|]); simpl; split; eauto.
  - unfold document_exists, try_except, mbind, M_bind, mret, M_ret, call.
    simpl.
    destruct (collection_get b (collection self) [doc_id] (store w))
      as [[e|r] s]; simpl; do 2 eexists; (split; [reflexivity|]); simpl;
      (split; [done|]); [done|].
    intros Hfound%bool_decide_eq_true. exists r. split; [done|].
    destruct (get_ids b r); [simpl in Hfound; lia | done].
Qed.

(** X16. A reset that succeeds has deleted the collection of the manager's
    name and created one under the same name with the manager's own
    embedding function, in that order; the manager returned differs from
    the old one in its collection only, and one INFO line is logged. *)
Theorem reset_collection_success (self self' : ChromaClient b)
    (w w' : World b) :
  reset_collection self w = (inr self', w') ->
  (exists s1,
     delete_collection b (collection_name self) (store w) = (inr (), s1)
     /\ create_collection b (collection_name self) (embedding_function self) s1
        = (inr (collection self'), store w'))
  /\ self' = mkChromaClient (collection_name self) (embedding_model self)
               (embedding_config self) (persist_directory self)
               (embedding_function self) (collection self')
  /\ log w'
     = log w ++ [(INFO, "Reset ChromaDB collection '"
                          +:+ collection_name self +:+ "'")].
Proof.
  unfold reset_collection, try_except, mbind, M_bind, mret, M_ret, call,
    logger_info, logger_error, throw. simpl.
  destruct (delete_collection b (collection_name self) (store w))
    as [[e|[]] s1] eqn:Hd; simpl; [done|].
  destruct (create_collection b (collection_name self)
              (embedding_function self) s1) as [[e|c] s2] eqn:Hc; simpl;
    [done|].
  intros [= <- <-]. simpl. eauto.
Qed.

End ManagerOperations.

Section ManagerOperationsWitnesses.

Lemma init_failure_creates_no_collection_witness :
  __init__ Samples.env_plain "zotero_library" (Some "/db") "openai" None
    Mem.empty
  = (inl (mkExc ValueError "OpenAI API key is required"), Mem.empty).
Proof.
  exact (init_failure_creates_no_collection Samples.env_plain
           "zotero_library" (Some "/db") "openai" None Mem.empty
           (mkExc ValueError "OpenAI API key is required") eq_refl).
Defined.

Lemma search_reads_first_id_list_witness :
  search Samples.outage_client [] 5 None None Samples.online
  = (inl (mkExc IndexError "list index out of range"),
     error_logged Samples.online (true : State Outage.backend)
       "Error performing semantic search: list index out of range").
Proof.
  destruct (search_reads_first_id_list Samples.outage_client [] 5 None None
              Samples.online ([] : QueryResult Outage.backend)
              (true : State Outage.backend) eq_refl) as [Hnone _].
  apply Hnone. reflexivity.
Defined.

Lemma reset_collection_success_witness :
  log (reset_collection Samples.outage_client Samples.online).2
  = [(INFO, "Reset ChromaDB collection 'zotero_library'")].
Proof.
  destruct (reset_collection_success Samples.outage_client
              Samples.outage_client Samples.online
              (reset_collection Samples.outage_client Samples.online).2
              eq_refl) as (_ & _ & Hlog).
  exact Hlog.
Defined.

End ManagerOperationsWitnesses.

(** ** The factory and its configuration *)

Section FactoryProperties.




Context {b : Backend}.

Lemma create_chroma_client_unfold (env : Env) (config_path : option string)
    (read : string -> ConfigFile) (config : Config) (w w1 : World b) :
  load_file_config config_path read w = (inr config, w1) ->
  create_chroma_client env config_path read w
  = __init__ env (c_collection_name (env_overrides env config)) None
      (c_embedding_model (env_overrides env config))
      (Some (c_embedding_config (env_overrides env config))) w1.
Proof.
  intros H. unfold create_chroma_client, mbind, M_bind. by rewrite H.
Qed.

Lemma load_file_config_total (config_path : option string)
    (read : string -> ConfigFile) (w : World b) :
  exists config w1,
    load_file_config config_path read w = (inr config, w1)
    /\ store w1 = store w.
Proof.
  unfold load_file_config. destruct (truthy config_path); [|by eexists _, _].
  destruct (read _); by eexists _, _.
Qed.

(** X18. A configuration file that is missing or cannot be loaded never
    stops the factory: it goes on with the defaults and the environment,
    as if no path had been given, after a WARNING line in the second case.
    And the factory never passes a directory: a manager it returns always
    persists under [~/.config/zotero-mcp/chroma_db]. *)
Theorem factory_survives_config_file (env : Env) (path : string)
    (read : string -> ConfigFile) (w : World b) :
  path <> EmptyString ->
  (read path = Missing ->
   create_chroma_client env (Some path) read w
   = create_chroma_client env None read w)
  /\ (forall e, read path = Unreadable e ->
        create_chroma_client env (Some path) read w
        = create_chroma_client env None read
            (mkWorld (store w)
               (log w ++ [(WARNING, "Error loading config from " +:+ path
                                      +:+ ": " +:+ exc_str e)])))
  /\ (forall self w',
        create_chroma_client env (Some path) read w = (inr self, w') ->
        persist_directory self
        = home env +:+ "/.config/zotero-mcp" +:+ "/chroma_db").
Proof.
  intros Hpath.
  assert (truthy (Some path) = true) as Ht by (by destruct path).
  split; [|split].
  - intros Hr. unfold create_chroma_client, load_file_config, mbind, M_bind.
    rewrite Ht. simpl. by rewrite Hr.
  - intros e Hr.
    unfold create_chroma_client, load_file_config, mbind, M_bind,
      logger_warning.
    rewrite Ht. simpl. by rewrite Hr.
  - intros self w' Hc.
    destruct (load_file_config_total (Some path) read w)
      as (config & w1 & Hload & _).
    rewrite (create_chroma_client_unfold _ _ _ _ _ _ Hload) in Hc.
    by apply init_fields in Hc as (_ & _ & _ & Hdir & _).
Qed.

End FactoryProperties.

Section FactoryWitness.

Lemma factory_survives_config_file_witness :
  create_chroma_client Samples.env_plain (Some "/etc/zotero-mcp.json")
    (fun _ => Missing) Samples.online
  = create_chroma_client Samples.env_plain None (fun _ => Missing)
      Samples.online.
Proof.
  apply (factory_survives_config_file Samples.env_plain
           "/etc/zotero-mcp.json" (fun _ => Missing) Samples.online);
    [discriminate | reflexivity].
Defined.

End FactoryWitness.

Section FactoryCredentials.
Context {b : Backend}.

(** With the model ["openai"] in force and a key in the environment, the
    factory's [embedding_config] is the environment's. *)
Lemma env_overrides_openai_key (env : Env) (config : Config) (key : string) :
  c_embedding_model (env_overrides env config) = "openai" ->
  getenv env "OPENAI_API_KEY" = Some key -> key <> EmptyString ->
  c_embedding_config (env_overrides env config)
  = {[ "api_key" := key;
       "model_name" :=
         default "text-embedding-3-small"
           (getenv env "OPENAI_EMBEDDING_MODEL") ]}.
Proof.
  unfold env_overrides. intros Hm Hk Hne. rewrite Hk in *.
  destruct key as [|c key]; [done|]. simpl in *.
  destruct (truthy (getenv env "ZOTERO_EMBEDDING_MODEL")); simpl in *;
    repeat case_decide; simpl in *; try done;
    repeat case_match; simpl in *; done || congruence.
Qed.

(** X19. Through the whole factory the environment's credentials win: when
    the manager it returns has the model ["openai"] and [OPENAI_API_KEY] is
    set, the manager embeds with that key and with the environment's model
    name or the default one, whatever key and model name the
    configuration file gave. *)
Theorem factory_env_key_wins (env : Env) (config_path : option string)
    (read : string -> ConfigFile) (w w' : World b) (self : ChromaClient b)
    (key : string) :
  create_chroma_client env config_path read w = (inr self, w') ->
  embedding_model self = "openai" ->
  getenv env "OPENAI_API_KEY" = Some key -> key <> EmptyString ->
  embedding_function self
  = OpenAIEmbedding
      (default "text-embedding-3-small" (getenv env "OPENAI_EMBEDDING_MODEL"))
      key
  /\ embedding_config self
     = {[ "api_key" := key;
          "model_name" :=
            default "text-embedding-3-small"
              (getenv env "OPENAI_EMBEDDING_MODEL") ]}.
Proof.
  intros Hc Hmodel Hkey Hne.
  destruct (load_file_config_total config_path read w)
    as (config & w1 & Hload & _).
  rewrite (create_chroma_client_unfold _ _ _ _ _ _ Hload) in Hc.
  destruct (init_fields _ _ _ _ _ _ _ _ Hc) as (_ & Hm & Hcfg & _).
  destruct (init_success _ _ _ _ _ _ _ _ Hc) as [Hef _].
  rewrite Hmodel in Hm. symmetry in Hm.
  pose proof (env_overrides_openai_key env config key Hm Hkey Hne) as Hwin.
  simpl in Hcfg, Hef.
  rewrite Hwin in Hcfg, Hef. rewrite Hm in Hef. split; [|exact Hcfg].
  unfold _create_embedding_function in Hef.
  rewrite decide_True in Hef by done.
  rewrite lookup_insert_ne, lookup_singleton_eq, lookup_insert_eq in Hef
    by done.
  unfold OpenAIEmbeddingFunction, or_else in Hef.
  destruct key as [|c key]; [done|]. simpl in Hef.
  destruct (openai_installed env); [|done]. by injection Hef as <-.
Qed.

End FactoryCredentials.

Section FactoryCredentialsWitness.

Lemma factory_env_key_wins_witness :
  create_chroma_client Samples.env_key (Some "/etc/zotero-mcp.json")
    Samples.openai_file Samples.online
  = (inr Samples.factory_client, Samples.online)
  /\ embedding_function Samples.factory_client
     = OpenAIEmbedding "text-embedding-3-small" "sk-test".
Proof.
  assert (create_chroma_client Samples.env_key (Some "/etc/zotero-mcp.json")
            Samples.openai_file Samples.online
          = (inr Samples.factory_client, Samples.online)) as Hc
    by reflexivity.
  split; [exact Hc|].
  apply (factory_env_key_wins Samples.env_key (Some "/etc/zotero-mcp.json")
           Samples.openai_file Samples.online Samples.online
           Samples.factory_client "sk-test" Hc);
    [reflexivity | reflexivity | discriminate].
Defined.

End FactoryCredentialsWitness.

(** ** The substring test of the naive search *)

Section SubstringSearch.





End SubstringSearch.
